(** * fed-liquidity-monitor: the stress-scoring model of [static/app.js]

    A shallow embedding of the pure part of the dashboard script: the
    statistics helpers ([mean], [std]), the tail-probability transform
    ([sigmoid], [tailProbFromZ]), the date join ([alignByDate]), the
    scoring function ([computeBeginnerPlus]), the risk bands ([riskLabel])
    and the feature derivation done inside [renderCorePanels].

    Number model.  A JavaScript number is embedded as an extended real:
    a finite real, one of the two infinities, or NaN.  Arithmetic on finite
    numbers is exact real arithmetic; the special values follow the IEEE
    rules the script relies on ([Number.isFinite], [x || 1e-9], NaN
    propagating through [Math.min] and [Math.max]).  Binary64 rounding,
    overflow, underflow and the sign of zero are not represented: [num_add],
    [num_mul], [num_div] and [math_exp] are exact on finite numbers, where
    the script's [+], [*], [/] and [Math.exp] round and can reach 0 or an
    infinity.  A statement whose truth depends on that is marked as holding
    in exact arithmetic; module [B64] gives the same arithmetic on binary64
    numbers, and the examples on it show where the two part. *)

From Stdlib Require Import Floats.PrimFloat.
From Stdlib Require Import Reals Lra Lia.
From stdpp Require Import gmap strings list.

(** ** JavaScript numbers and values *)

Inductive number : Type :=
  | NaN
  | NegInf
  | Fin (r : R)
  | PosInf.

(** The values the script handles in an observation or a feature: [null]
    or a number. *)
Inductive value : Type :=
  | Null
  | Num (n : number).

(** [ToNumber]: applied by [-] and by the [Math] functions; [null] reads
    as [0]. *)
Definition to_number (v : value) : number :=
  match v with
  | Null => Fin 0
  | Num n => n
  end.

Definition Rleb (x y : R) : bool := if Rle_dec x y then true else false.
Definition Rltb (x y : R) : bool := if Rlt_dec x y then true else false.
Definition Reqb (x y : R) : bool := if Req_dec_T x y then true else false.

(** Sign of a number other than NaN; zero is [Eq]. *)
Definition Rsgn (r : R) : comparison :=
  if Rltb r 0 then Lt else if Rltb 0 r then Gt else Eq.

Definition num_sgn (a : number) : comparison :=
  match a with
  | NegInf => Lt
  | PosInf => Gt
  | Fin r => Rsgn r
  | NaN => Eq
  end.

Definition mul_sgn (s t : comparison) : comparison :=
  match s, t with
  | Eq, _ | _, Eq => Eq
  | Lt, Lt | Gt, Gt => Gt
  | Lt, Gt | Gt, Lt => Lt
  end.

(** Infinity of a given sign; the sign [Eq] stands for an undefined
    product or quotient ([0 * Infinity], [0 / 0]). *)
Definition inf_of_sgn (s : comparison) : number :=
  match s with
  | Lt => NegInf
  | Gt => PosInf
  | Eq => NaN
  end.

Definition num_neg (a : number) : number :=
  match a with
  | NaN => NaN
  | NegInf => PosInf
  | Fin r => Fin (- r)
  | PosInf => NegInf
  end.

(** [a + b].  On two finite numbers this is the exact sum: the script's
    sum is rounded to binary64 and overflows to an infinity beyond about
    1.8e308. *)
Definition num_add (a b : number) : number :=
  match a, b with
  | NaN, _ | _, NaN => NaN
  | Fin x, Fin y => Fin (x + y)
  | PosInf, NegInf | NegInf, PosInf => NaN
  | PosInf, _ | _, PosInf => PosInf
  | NegInf, _ | _, NegInf => NegInf
  end.

Definition num_sub (a b : number) : number := num_add a (num_neg b).

(** [a * b].  On two finite numbers this is the exact product, without
    the rounding, overflow and underflow of the script's product. *)
Definition num_mul (a b : number) : number :=
  match a, b with
  | NaN, _ | _, NaN => NaN
  | Fin x, Fin y => Fin (x * y)
  | _, _ => inf_of_sgn (mul_sgn (num_sgn a) (num_sgn b))
  end.

(** [a / b]; a zero divisor is read as [+0].  On two finite numbers with
    a non-zero divisor this is the exact quotient, where the script's
    quotient is rounded. *)
Definition num_div (a b : number) : number :=
  match a, b with
  | NaN, _ | _, NaN => NaN
  | Fin x, Fin y => if Reqb y 0 then inf_of_sgn (Rsgn x) else Fin (x / y)
  | Fin _, _ => Fin 0
  | _, Fin y => inf_of_sgn (mul_sgn (num_sgn a) (if Reqb y 0 then Gt else Rsgn y))
  | _, _ => NaN
  end.

(** [a <= b] and [a < b]; every comparison with NaN is false. *)
Definition num_leb (a b : number) : bool :=
  match a, b with
  | NaN, _ | _, NaN => false
  | NegInf, _ | _, PosInf => true
  | Fin x, Fin y => Rleb x y
  | _, _ => false
  end.

Definition num_ltb (a b : number) : bool :=
  match a, b with
  | NaN, _ | _, NaN => false
  | NegInf, NegInf | PosInf, PosInf => false
  | NegInf, _ | _, PosInf => true
  | Fin x, Fin y => Rltb x y
  | _, _ => false
  end.

(** [a >= b] *)
Definition num_geb (a b : number) : bool := num_leb b a.

(** ** The [Math] functions the script calls *)

Definition math_abs (a : number) : number :=
  match a with
  | NaN => NaN
  | Fin r => Fin (Rabs r)
  | _ => PosInf
  end.

(** [Math.exp].  At a finite argument this is the real exponential, which
    is never 0 and never infinite; the script's [Math.exp] underflows to 0
    and overflows to [Infinity], so that its [sigmoid] returns exactly 0
    and exactly 1 at large finite arguments. *)
Definition math_exp (a : number) : number :=
  match a with
  | NaN => NaN
  | NegInf => Fin 0
  | Fin r => Fin (exp r)
  | PosInf => PosInf
  end.

Definition math_sqrt (a : number) : number :=
  match a with
  | Fin r => if Rltb r 0 then NaN else Fin (sqrt r)
  | PosInf => PosInf
  | _ => NaN
  end.

Definition math_log1p (a : number) : number :=
  match a with
  | Fin r =>
      if Rltb r (-1) then NaN
      else if Reqb r (-1) then NegInf
      else Fin (ln (1 + r))
  | PosInf => PosInf
  | _ => NaN
  end.

Definition math_max (a b : number) : number :=
  match a, b with
  | NaN, _ | _, NaN => NaN
  | _, _ => if num_leb a b then b else a
  end.

Definition math_min (a b : number) : number :=
  match a, b with
  | NaN, _ | _, NaN => NaN
  | _, _ => if num_leb a b then a else b
  end.

(** [Number.isFinite(v)]: no coercion, so [null] is not finite. *)
Definition isFinite (v : value) : bool :=
  match v with
  | Num (Fin _) => true
  | _ => false
  end.

(** Truthiness of a number: NaN and zero are falsy. *)
Definition truthy (a : number) : bool :=
  match a with
  | NaN => false
  | Fin r => negb (Reqb r 0)
  | _ => true
  end.

(** [a || b] on numbers. *)
Definition js_or (a b : number) : number := if truthy a then a else b.

(** [v !== null] *)
Definition not_null (v : value) : bool :=
  match v with
  | Null => false
  | Num _ => true
  end.

(** ** Records of the script *)

Module Obs.
(** One observation of a series: [{date, value}]. *)
Record t : Type := mk { date : string; value : value }.
End Obs.

Module Aligned.
(** A row pushed by [alignByDate]: [{date, a, b}]. *)
Record t : Type := mk { date : string; a : value; b : value }.
End Aligned.

Module FeatureRow.
(** A row of [alignedForModel]. *)
Record t : Type := mk {
  date : string;
  spread : value;
  repoVal : value;
  repoDelta1 : value;
  repoLogChg5 : value
}.
End FeatureRow.

Module ScorePoint.
(** A point returned by [computeBeginnerPlus]. *)
Record t : Type := mk {
  date : string;
  pStress : number;
  pSpread : number;
  pRepo : number;
  zSpread : number
}.
End ScorePoint.

Module Risk.
(** The object returned by [riskLabel]. *)
Record t : Type := mk { label : string; cls : string }.
End Risk.

(** ** Statistics helpers *)

(** [arr.filter(v => Number.isFinite(v))] *)
Definition finite_values (arr : list value) : list value :=
  filter (λ v, isFinite v = true) arr.

(** [xs.reduce((a, b) => a + b, 0)] *)
Definition sum_values (xs : list value) : number :=
  foldl (λ a b, num_add a (to_number b)) (Fin 0) xs.

Definition mean (arr : list value) : number :=
  let xs := finite_values arr in
  if Nat.eqb (length xs) 0 then NaN
  else num_div (sum_values xs) (Fin (INR (length xs))).

(** [xs.reduce((acc, x) => acc + (x - m) * (x - m), 0)] *)
Definition sum_sq_dev (m : number) (xs : list value) : number :=
  foldl (λ acc x,
           num_add acc (num_mul (num_sub (to_number x) m)
                                (num_sub (to_number x) m)))
        (Fin 0) xs.

Definition std (arr : list value) : number :=
  let xs := finite_values arr in
  if Nat.ltb (length xs) 2 then NaN
  else
    let m := mean xs in
    let v := num_div (sum_sq_dev m xs) (Fin (INR (length xs - 1))) in
    math_sqrt v.

(** ** Tail probability *)

Definition sigmoid (x : number) : number :=
  num_div (Fin 1) (num_add (Fin 1) (math_exp (num_neg x))).

Definition tailProbFromZ (z k : number) : number :=
  let t := num_sub (math_abs z) k in
  math_max (Fin 0) (math_min (Fin 1) (sigmoid (num_mul (Fin 2.2) t))).

(** ** Joining two series on the date *)

(** [new Map(entries)]: the entries are set in order, so for a repeated
    key the last one stays. *)
Definition new_Map (entries : list (string * value)) : gmap string value :=
  foldl (λ m kv, <[kv.1 := kv.2]> m) ∅ entries.

(** The body of the [for] loop: [mapB.has(a.date)] guards the push, and
    [mapB.get(a.date)] is the value found. *)
Definition align_step (mapB : gmap string value)
    (out : list Aligned.t) (a : Obs.t) : list Aligned.t :=
  match mapB !! Obs.date a with
  | Some vb => out ++ [Aligned.mk (Obs.date a) (Obs.value a) vb]
  | None => out
  end.

Definition alignByDate (seriesA seriesB : list Obs.t) : list Aligned.t :=
  let mapB := new_Map ((λ o, (Obs.date o, Obs.value o)) <$> seriesB) in
  foldl (align_step mapB) [] seriesA.

(** What the loop of [alignByDate] pushes for one element of [seriesA]. *)
Definition align_row (mapB : gmap string value) (a : Obs.t) : option Aligned.t :=
  Aligned.mk (Obs.date a) (Obs.value a) <$> mapB !! Obs.date a.

(** ** The scoring model *)

(** [1 - (1 - pSpread) * (1 - pRepo)] *)
Definition combine (pSpread pRepo : number) : number :=
  num_sub (Fin 1) (num_mul (num_sub (Fin 1) pSpread) (num_sub (Fin 1) pRepo)).

(** [(x - m) / s], the expression of both [zSpread] and [zRepo]. *)
Definition zscore (x m s : number) : number := num_div (num_sub x m) s.

(** The callback of [alignedSpreadRepo.map] in [computeBeginnerPlus]; the
    constants it closes over are its first arguments. *)
Definition score_row (mS sS mR sR k : number) (o : FeatureRow.t) : ScorePoint.t :=
  let zSpread := zscore (to_number (FeatureRow.spread o)) mS sS in
  let pSpread := tailProbFromZ zSpread k in
  let pRepo :=
    match FeatureRow.repoLogChg5 o with
    | Null => Fin 0
    | Num r =>
        let zRepo := zscore r mR sR in
        tailProbFromZ zRepo k
    end in
  let pStress := combine pSpread pRepo in
  ScorePoint.mk (FeatureRow.date o) pStress pSpread pRepo zSpread.

Definition spreadVals (rows : list FeatureRow.t) : list value :=
  FeatureRow.spread <$> rows.

Definition repoVals (rows : list FeatureRow.t) : list value :=
  filter (λ v, not_null v = true) (FeatureRow.repoLogChg5 <$> rows).

(** The object [{ points, latest }]; a [null] latest is [None]. *)
Definition computeBeginnerPlus (alignedSpreadRepo : list FeatureRow.t) (k : number)
    : list ScorePoint.t * option ScorePoint.t :=
  let mS := mean (spreadVals alignedSpreadRepo) in
  let sS := js_or (std (spreadVals alignedSpreadRepo)) (Fin 1e-9) in
  let mR := mean (repoVals alignedSpreadRepo) in
  let sR := js_or (std (repoVals alignedSpreadRepo)) (Fin 1e-9) in
  let points := score_row mS sS mR sR k <$> alignedSpreadRepo in
  let latest := if Nat.eqb (length points) 0 then None else points !! (length points - 1) in
  (points, latest).

(** The callback of [computeBeginnerPlus] with the constants it closes over
    for the given rows. *)
Definition score_of (rows : list FeatureRow.t) (k : number) : FeatureRow.t → ScorePoint.t :=
  score_row (mean (spreadVals rows))
            (js_or (std (spreadVals rows)) (Fin 1e-9))
            (mean (repoVals rows))
            (js_or (std (repoVals rows)) (Fin 1e-9))
            k.

Definition riskLabel (p : number) : Risk.t :=
  if num_geb p (Fin 0.80) then Risk.mk "High" "danger"
  else if num_geb p (Fin 0.50) then Risk.mk "Elevated" "warn"
  else Risk.mk "Normal" "ok".

(** ** Feature derivation in [renderCorePanels]

    The pure part of the function: from the three observation arrays to
    the rows given to [computeBeginnerPlus]. *)

Module SpreadRepo.
(** A row of [aligned]: [{date, spread, repoVal}]. *)
Record t : Type := mk { date : string; spread : value; repoVal : value }.
End SpreadRepo.

(** [alignByDate(sofrObs, effrObs).map(o => ({ date: o.date, value: (o.a - o.b) }))] *)
Definition spread (sofrObs effrObs : list Obs.t) : list Obs.t :=
  (λ o, Obs.mk (Aligned.date o)
          (Num (num_sub (to_number (Aligned.a o)) (to_number (Aligned.b o)))))
    <$> alignByDate sofrObs effrObs.

Definition repoLog (repoObs : list Obs.t) : list Obs.t :=
  (λ o, Obs.mk (Obs.date o) (Num (math_log1p (to_number (Obs.value o))))) <$> repoObs.

(** [series[j].value].  The script reads it only at an index below the
    current one (see [value_at_in_range]); the [None] branch stands for
    the access past the end, which the script never makes. *)
Definition value_at (series : list Obs.t) (j : nat) : value :=
  match series !! j with
  | Some o => Obs.value o
  | None => Null
  end.

Definition repoDelta1 (repoObs : list Obs.t) : list Obs.t :=
  imap (λ i o,
          let prev := if Nat.leb 1 i then value_at repoObs (i - 1) else Null in
          Obs.mk (Obs.date o)
            (match prev with
             | Null => Null
             | Num p => Num (num_sub (to_number (Obs.value o)) p)
             end))
       repoObs.

Definition repoLogChg5 (repoObs : list Obs.t) : list Obs.t :=
  imap (λ i o,
          let prev := if Nat.leb 5 i then value_at (repoLog repoObs) (i - 5) else Null in
          Obs.mk (Obs.date o)
            (match prev with
             | Null => Null
             | Num p => Num (num_sub (to_number (Obs.value o)) p)
             end))
       (repoLog repoObs).

Definition aligned (sofrObs effrObs repoObs : list Obs.t) : list SpreadRepo.t :=
  (λ o, SpreadRepo.mk (Aligned.date o) (Aligned.a o) (Aligned.b o))
    <$> alignByDate (spread sofrObs effrObs) repoObs.

(** [new Map(series.filter(x => x.value !== null).map(x => [x.date, x.value]))] *)
Definition non_null_Map (series : list Obs.t) : gmap string value :=
  new_Map ((λ x, (Obs.date x, Obs.value x))
             <$> filter (λ x, not_null (Obs.value x) = true) series).

(** [m.has(d) ? m.get(d) : null] *)
Definition get_or_null (m : gmap string value) (d : string) : value :=
  match m !! d with
  | Some v => v
  | None => Null
  end.

Definition alignedForModel (sofrObs effrObs repoObs : list Obs.t) : list FeatureRow.t :=
  let mapRepoLogChg5 := non_null_Map (repoLogChg5 repoObs) in
  let mapRepoDelta1 := non_null_Map (repoDelta1 repoObs) in
  (λ o, FeatureRow.mk (SpreadRepo.date o) (SpreadRepo.spread o) (SpreadRepo.repoVal o)
          (get_or_null mapRepoDelta1 (SpreadRepo.date o))
          (get_or_null mapRepoLogChg5 (SpreadRepo.date o)))
    <$> aligned sofrObs effrObs repoObs.

(** The scores [renderCorePanels] displays for the fetched observations. *)
Definition corePoints (sofrObs effrObs repoObs : list Obs.t) (k : number)
    : list ScorePoint.t * option ScorePoint.t :=
  computeBeginnerPlus (alignedForModel sofrObs effrObs repoObs) k.

Module Kpi.
(** The three bands computed inside [if (latest) { ... }]. *)
Record t : Type := mk { spreadRisk : Risk.t; repoRisk : Risk.t; sys : Risk.t }.
End Kpi.

(** The guarded KPI block of [renderCorePanels]: skipped for a [null]
    latest. *)
Definition kpiRisks (latest : option ScorePoint.t) : option Kpi.t :=
  match latest with
  | Some l =>
      Some (Kpi.mk (riskLabel (ScorePoint.pSpread l))
                   (riskLabel (ScorePoint.pRepo l))
                   (riskLabel (ScorePoint.pStress l)))
  | None => None
  end.

(** ** Definitions that follow the specification's wording *)

(** [clamp(x, lo, hi)]: [x] limited to the interval from [lo] to [hi]. *)
Definition spec_clamp (x lo hi : number) : number :=
  if num_ltb x lo then lo else if num_ltb hi x then hi else x.

(** The tail-probability transform as the specification writes it:
    [clamp(sigmoid(2.2 * (|z| - k)), 0, 1)]. *)
Definition spec_tailProb (z k : number) : number :=
  spec_clamp (sigmoid (num_mul (Fin 2.2) (num_sub (math_abs z) k))) (Fin 0) (Fin 1).

(** The logistic function on the reals, the value of [sigmoid] at a
    finite number. *)
Definition logistic (x : R) : R := (1 / (1 + exp (- x)))%R.

(** The three risk bands of the specification. *)
Inductive band : Type := Normal | Elevated | High.

Definition band_of (r : Risk.t) : option band :=
  if String.eqb (Risk.label r) "High" then Some High
  else if String.eqb (Risk.label r) "Elevated" then Some Elevated
  else if String.eqb (Risk.label r) "Normal" then Some Normal
  else None.

(** ** Concrete inputs used in the examples *)

(** Two rows of which the second has a null spread. *)
Definition rows_with_null_spread : list FeatureRow.t :=
  [ FeatureRow.mk "2024-01-02" (Num (Fin 0.01)) (Num (Fin 100)) Null Null;
    FeatureRow.mk "2024-01-03" Null (Num (Fin 120)) (Num (Fin 20)) Null ].


(** Four business days of the two rates and of the repo volume. *)
Definition sofr_4 : list Obs.t :=
  [ Obs.mk "2024-01-02" (Num (Fin 5.31)); Obs.mk "2024-01-03" (Num (Fin 5.32));
    Obs.mk "2024-01-04" (Num (Fin 5.30)); Obs.mk "2024-01-05" (Num (Fin 5.31)) ].

Definition effr_4 : list Obs.t :=
  [ Obs.mk "2024-01-02" (Num (Fin 5.33)); Obs.mk "2024-01-03" (Num (Fin 5.31));
    Obs.mk "2024-01-04" (Num (Fin 5.29)); Obs.mk "2024-01-05" (Num (Fin 5.33)) ].

Definition repo_4 : list Obs.t :=
  [ Obs.mk "2024-01-02" (Num (Fin 100)); Obs.mk "2024-01-03" (Num (Fin 120));
    Obs.mk "2024-01-04" (Num (Fin 90)); Obs.mk "2024-01-05" (Num (Fin 0)) ].

(** Six days of repo volume. *)
Definition repo_6 : list Obs.t :=
  [ Obs.mk "2024-01-02" (Num (Fin 100)); Obs.mk "2024-01-03" (Num (Fin 120));
    Obs.mk "2024-01-04" (Num (Fin 90)); Obs.mk "2024-01-05" (Num (Fin 0));
    Obs.mk "2024-01-08" (Num (Fin 40)); Obs.mk "2024-01-09" (Num (Fin 150)) ].

(** A repo volume series whose second observation has no value. *)
Definition repo_with_missing : list Obs.t :=
  [ Obs.mk "2024-01-02" (Num (Fin 100)); Obs.mk "2024-01-03" Null;
    Obs.mk "2024-01-04" (Num (Fin 90)) ].

(** Two series of which the first repeats a date. *)
Definition series_repeated_date : list Obs.t :=
  [ Obs.mk "2024-01-02" (Num (Fin 5.31)); Obs.mk "2024-01-02" (Num (Fin 5.32)) ].

Definition series_one_date : list Obs.t :=
  [ Obs.mk "2024-01-02" (Num (Fin 5.33)) ].

(** ** Reference quantities on the reals

    The finite entries of an array as real numbers, and the sums the
    statistics helpers compute over them. *)







Definition rows_three : list FeatureRow.t :=
  [ FeatureRow.mk "2024-01-02" (Num (Fin (-1))) (Num (Fin 100)) Null Null;
    FeatureRow.mk "2024-01-03" (Num (Fin 0)) (Num (Fin 120)) (Num (Fin 20)) Null;
    FeatureRow.mk "2024-01-04" (Num (Fin 1)) (Num (Fin 90)) (Num (Fin (-30))) Null ].

(** ** The alert banner of [renderCorePanels] *)

Module Banner.
(** What the script writes to the banner: its [className] and the HTML of
    its text. *)
Record t : Type := mk { className : string; text : string }.
End Banner.

Definition alert_text : string :=
  "<strong>ALERT:</strong> Elevated Liquidity Stress Detected. Monitor conditions closely and review funding positions.".

Definition watch_text : string :=
  "<strong>WATCH:</strong> Stress probability elevated. Track spread and repo usage for persistence.".

Definition ok_text : string :=
  "<strong>OK:</strong> No elevated liquidity stress detected.".

(** The banner for [sys = riskLabel(latest.pStress)]. *)
Definition alertBanner (sys : Risk.t) : Banner.t :=
  Banner.mk
    ("card alertBanner " ++
       (if String.eqb (Risk.cls sys) "danger" then "danger"
        else if String.eqb (Risk.cls sys) "warn" then "warn" else "ok"))
    (if String.eqb (Risk.cls sys) "danger" then alert_text
     else if String.eqb (Risk.cls sys) "warn" then watch_text
     else ok_text).

(** Position of a risk object in the order Normal, Elevated, High. *)
Definition risk_rank (r : Risk.t) : nat :=
  match band_of r with
  | Some High => 2
  | Some Elevated => 1
  | _ => 0
  end.

(** One row, and the point [computeBeginnerPlus] gives it. *)
Definition row_one : FeatureRow.t :=
  FeatureRow.mk "2024-01-02" (Num (Fin 0.01)) (Num (Fin 100)) Null Null.

Definition point_one : ScorePoint.t := score_of [row_one] (Fin 2.5) row_one.

(** A series that repeats its only date. *)
Definition series_twice : list Obs.t :=
  [ Obs.mk "2024-01-02" (Num (Fin 5.33)); Obs.mk "2024-01-02" (Num (Fin 5.35)) ].

(** An observation with a [null] value read as 0. *)
Definition null_as_zero (o : Obs.t) : Obs.t :=
  Obs.mk (Obs.date o) (Num (to_number (Obs.value o))).

(** ** Well-formed input

    A value as a JSON payload can carry it: [null] or a finite number; a
    repo volume is moreover above -1, where [Math.log1p] is finite. *)




(** The row of 2024-01-05 built from [sofr_4], [effr_4] and [repo_6]. *)
Definition row_jan_5 : FeatureRow.t :=
  FeatureRow.mk "2024-01-05"
    (Num (num_sub (Fin 5.31) (Fin 5.33))) (Num (Fin 0))
    (Num (num_sub (Fin 0) (Fin 90))) Null.

(** ** Headline values of [renderCorePanels] *)

(** [Math.round]: the nearest integer, a tie going up.  It is exact on its
    argument; in [gaugeValue] the argument is the product [num_mul]
    computes, which is the exact product where the script rounds it. *)
Definition math_round (a : number) : number :=
  match a with
  | Fin r => Fin (IZR (Int_part (r + 0.5)))
  | _ => a
  end.

(** The value given to the gauge: [Math.round(latest.pStress * 100)]. *)
Definition gaugeValue (latest : ScorePoint.t) : number :=
  math_round (num_mul (ScorePoint.pStress latest) (Fin 100)).

(** [latest ? alignedForModel[alignedForModel.length - 1].spread : null];
    [None] stands for the TypeError of reading [.spread] past the end of
    the array. *)
Definition spreadNow (alignedForModel : list FeatureRow.t)
    (latest : option ScorePoint.t) : option value :=
  match latest with
  | Some _ => FeatureRow.spread <$> alignedForModel !! (length alignedForModel - 1)
  | None => Some Null
  end.

(** [alignedForModel.length ? alignedForModel[alignedForModel.length - 1].repoDelta1 : null] *)
Definition repoDeltaNow (alignedForModel : list FeatureRow.t) : option value :=
  if Nat.eqb (length alignedForModel) 0 then Some Null
  else FeatureRow.repoDelta1 <$> alignedForModel !! (length alignedForModel - 1).

(** ** The band of [renderSelectedSeriesBand] *)

Section Band.

(** [new Date(iso).getTime()], a function of the platform. *)
Variable getTime : string → number.



End Band.

(** ** The arithmetic in binary64

    The expressions of the script whose properties depend on rounding,
    written with the binary64 operations of the kernel: a number is a
    [float], a value is a [float] or [None] for [null]. *)

Module B64.

Definition to_number (v : option float) : float :=
  match v with
  | None => 0%float
  | Some x => x
  end.

Definition isFinite (v : option float) : bool :=
  match v with
  | Some x => is_finite x
  | None => false
  end.

(** An array length as a number. *)
Fixpoint of_length (n : nat) : float :=
  match n with
  | O => 0%float
  | S n => (of_length n + 1)%float
  end.

Definition truthy (a : float) : bool := negb (is_nan a || is_zero a).

Definition js_or (a b : float) : float := if truthy a then a else b.

Definition mean (arr : list (option float)) : float :=
  let xs := filter (λ v, isFinite v = true) arr in
  if Nat.eqb (length xs) 0 then nan
  else (foldl (λ a b, a + to_number b) 0 xs / of_length (length xs))%float.

Definition std (arr : list (option float)) : float :=
  let xs := filter (λ v, isFinite v = true) arr in
  if Nat.ltb (length xs) 2 then nan
  else
    let m := mean xs in
    let v := (foldl (λ acc x, acc + (to_number x - m) * (to_number x - m)) 0 xs
              / of_length (length xs - 1))%float in
    PrimFloat.sqrt v.

Definition zscore (x m s : float) : float := ((x - m) / s)%float.

(** [1 - (1 - pSpread) * (1 - pRepo)] *)
Definition combine (pSpread pRepo : float) : float :=
  (1 - (1 - pSpread) * (1 - pRepo))%float.

(** [(o.spread - mS) / sS] with [sS = std(spreadVals) || 1e-9]. *)
Definition zSpread (spreadVals : list (option float)) (spread : option float) : float :=
  zscore (to_number spread) (mean spreadVals)
         (js_or (std spreadVals) 0x1.12e0be826d695p-30%float).

End B64.
(** * Properties *)

(** ** Real comparisons as booleans *)

Lemma Rleb_true (x y : R) : Rleb x y = true ↔ (x <= y)%R.
Proof. unfold Rleb. destruct (Rle_dec x y); split; intros; (done || lra). Qed.


Lemma Rltb_true (x y : R) : Rltb x y = true ↔ (x < y)%R.
Proof. unfold Rltb. destruct (Rlt_dec x y); split; intros; (done || lra). Qed.

Lemma Rltb_false (x y : R) : Rltb x y = false ↔ (y <= x)%R.
Proof. unfold Rltb. destruct (Rlt_dec x y); split; intros; (done || lra). Qed.

Lemma Reqb_true (x y : R) : Reqb x y = true ↔ x = y.
Proof. unfold Reqb. destruct (Req_dec_T x y); split; intros; (done || lra). Qed.

Lemma Reqb_false (x y : R) : Reqb x y = false ↔ x ≠ y.
Proof. unfold Reqb. destruct (Req_dec_T x y); split; intros; (done || lra). Qed.

(** Decide every real comparison in sight and keep the branches that are
    arithmetically possible. *)
Ltac r_cases :=
  unfold Rsgn, Rleb, Rltb, Reqb in *;
  repeat match goal with
    | |- context [Rle_dec ?x ?y] => destruct (Rle_dec x y)
    | |- context [Rlt_dec ?x ?y] => destruct (Rlt_dec x y)
    | |- context [Req_dec_T ?x ?y] => destruct (Req_dec_T x y)
    | H : context [Rle_dec ?x ?y] |- _ => destruct (Rle_dec x y)
    | H : context [Rlt_dec ?x ?y] |- _ => destruct (Rlt_dec x y)
    | H : context [Req_dec_T ?x ?y] |- _ => destruct (Req_dec_T x y)
    end;
  simpl in *; try done; try lra; try (f_equal; lra).

(** ** The risk bands (C9) *)

Lemma riskLabel_high (p : number) :
  num_geb p (Fin 0.80) = true → riskLabel p = Risk.mk "High" "danger".
Proof. unfold riskLabel. by intros ->. Qed.

Lemma riskLabel_elevated (p : number) :
  num_geb p (Fin 0.50) = true → num_ltb p (Fin 0.80) = true →
  riskLabel p = Risk.mk "Elevated" "warn".
Proof.
  unfold riskLabel, num_geb. intros Hge Hlt. rewrite Hge.
  destruct p; simpl in *; try done. r_cases.
Qed.

Lemma riskLabel_normal (p : number) :
  num_ltb p (Fin 0.50) = true → riskLabel p = Risk.mk "Normal" "ok".
Proof.
  unfold riskLabel, num_geb. intros Hlt.
  destruct p; simpl in *; try done. r_cases.
Qed.

Lemma riskLabel_total (p : number) :
  ∃ b, band_of (riskLabel p) = Some b.
Proof.
  unfold riskLabel.
  destruct (num_geb p (Fin 0.80)); [by exists High|].
  destruct (num_geb p (Fin 0.50)); [by exists Elevated|by exists Normal].
Qed.

(** C9.  [riskLabel] returns exactly one of the three bands: High when
    [p >= 0.80], Elevated when [0.50 <= p < 0.80], Normal when [p < 0.50];
    at the boundaries, 0.80 is High, 0.7999 and 0.50 are Elevated and
    0.4999 is Normal. *)
Theorem riskLabel_bands (p : number) :
  (∃ b, band_of (riskLabel p) = Some b) ∧
  (num_geb p (Fin 0.80) = true → band_of (riskLabel p) = Some High) ∧
  (num_geb p (Fin 0.50) = true → num_ltb p (Fin 0.80) = true →
     band_of (riskLabel p) = Some Elevated) ∧
  (num_ltb p (Fin 0.50) = true → band_of (riskLabel p) = Some Normal) ∧
  band_of (riskLabel (Fin 0.80)) = Some High ∧
  band_of (riskLabel (Fin 0.7999)) = Some Elevated ∧
  band_of (riskLabel (Fin 0.50)) = Some Elevated ∧
  band_of (riskLabel (Fin 0.4999)) = Some Normal.
Proof.
  split; [apply riskLabel_total|].
  split; [by intros ->%riskLabel_high|].
  split; [intros H1 H2; by rewrite riskLabel_elevated|].
  split; [by intros ->%riskLabel_normal|].
  split; [rewrite riskLabel_high; [done|simpl; apply Rleb_true; lra]|].
  split; [rewrite riskLabel_elevated; [done|simpl; apply Rleb_true; lra|simpl; apply Rltb_true; lra]|].
  split; [rewrite riskLabel_elevated; [done|simpl; apply Rleb_true; lra|simpl; apply Rltb_true; lra]|].
  rewrite riskLabel_normal; [done|simpl; apply Rltb_true; lra].
Qed.

Lemma riskLabel_bands_witness :
  num_geb (Fin 0.65) (Fin 0.50) = true ∧ num_ltb (Fin 0.65) (Fin 0.80) = true ∧
  band_of (riskLabel (Fin 0.65)) = Some Elevated.
Proof.
  assert (H1 : num_geb (Fin 0.65) (Fin 0.50) = true) by (simpl; apply Rleb_true; lra).
  assert (H2 : num_ltb (Fin 0.65) (Fin 0.80) = true) by (simpl; apply Rltb_true; lra).
  split; [exact H1|]. split; [exact H2|].
  exact (proj1 (proj2 (proj2 (riskLabel_bands (Fin 0.65)))) H1 H2).
Defined.

(** ** Shape of the result of [computeBeginnerPlus] *)

Lemma computeBeginnerPlus_points (rows : list FeatureRow.t) (k : number) :
  (computeBeginnerPlus rows k).1 = score_of rows k <$> rows.
Proof. reflexivity. Qed.

Lemma latest_is_last {A : Type} (l : list A) :
  (if Nat.eqb (length l) 0 then None else l !! (length l - 1)) = last l.
Proof.
  rewrite last_lookup. destruct l as [|x l]; [done|].
  simpl. by rewrite Nat.sub_0_r.
Qed.

Lemma computeBeginnerPlus_latest (rows : list FeatureRow.t) (k : number) :
  (computeBeginnerPlus rows k).2 = last (computeBeginnerPlus rows k).1.
Proof. unfold computeBeginnerPlus. simpl. apply latest_is_last. Qed.

Lemma score_row_date (mS sS mR sR k : number) (o : FeatureRow.t) :
  ScorePoint.date (score_row mS sS mR sR k o) = FeatureRow.date o.
Proof. reflexivity. Qed.

Lemma computeBeginnerPlus_lookup (rows : list FeatureRow.t) (k : number) (i : nat) :
  (computeBeginnerPlus rows k).1 !! i = score_of rows k <$> rows !! i.
Proof. rewrite computeBeginnerPlus_points. apply list_lookup_fmap. Qed.

Lemma filter_all {A : Type} (P : A → Prop) `{∀ x, Decision (P x)} (l : list A) :
  Forall P l → filter P l = l.
Proof.
  induction 1 as [|x l Hx Hl IH]; [done|].
  rewrite filter_cons_True by done. by rewrite IH.
Qed.

Lemma filter_none {A : Type} (P : A → Prop) `{∀ x, Decision (P x)} (l : list A) :
  Forall (λ x, ¬ P x) l → filter P l = [].
Proof.
  induction 1 as [|x l Hx Hl IH]; [done|].
  by rewrite filter_cons_False.
Qed.

(** ** The empty input (C10) *)

(** C10.  For the empty sequence of rows [computeBeginnerPlus] returns no
    point and a null latest reading; the caller in [renderCorePanels]
    skips its KPI block for that null. *)
Theorem computeBeginnerPlus_empty (k : number) :
  computeBeginnerPlus [] k = ([], None) ∧ kpiRisks (computeBeginnerPlus [] k).2 = None.
Proof. split; reflexivity. Qed.

(** ** One point per row (C2) *)

(** Against C2 as stated: the row with the null spread gets a point too,
    so there are two points for one row with a non-null spread. *)
Lemma computeBeginnerPlus_scores_null_spread :
  length (computeBeginnerPlus rows_with_null_spread (Fin 2.5)).1 = 2 ∧
  length (filter (λ o, not_null (FeatureRow.spread o) = true) rows_with_null_spread) = 1 ∧
  ScorePoint.date <$> (computeBeginnerPlus rows_with_null_spread (Fin 2.5)).1
    ≠ FeatureRow.date
        <$> filter (λ o, not_null (FeatureRow.spread o) = true) rows_with_null_spread.
Proof. repeat split. discriminate. Qed.

(** C2, amended.  [computeBeginnerPlus] produces exactly one point per
    row, whether or not the row's spread is null, in the order of the
    rows, each with its row's date; [latest] is the last point.  When no
    row has a null spread these are the rows with a non-null spread. *)
Theorem computeBeginnerPlus_one_point_per_row (rows : list FeatureRow.t) (k : number) :
  length (computeBeginnerPlus rows k).1 = length rows ∧
  (∀ i, (computeBeginnerPlus rows k).1 !! i = score_of rows k <$> rows !! i) ∧
  ScorePoint.date <$> (computeBeginnerPlus rows k).1 = FeatureRow.date <$> rows ∧
  (computeBeginnerPlus rows k).2 = last (computeBeginnerPlus rows k).1 ∧
  (Forall (λ o, not_null (FeatureRow.spread o) = true) rows →
   ScorePoint.date <$> (computeBeginnerPlus rows k).1
     = FeatureRow.date <$> filter (λ o, not_null (FeatureRow.spread o) = true) rows).
Proof.
  assert (Hd : ScorePoint.date <$> (computeBeginnerPlus rows k).1 = FeatureRow.date <$> rows).
  { rewrite computeBeginnerPlus_points, <- list_fmap_compose. by apply list_fmap_ext. }
  split; [by rewrite computeBeginnerPlus_points, length_fmap|].
  split; [apply computeBeginnerPlus_lookup|].
  split; [exact Hd|].
  split; [apply computeBeginnerPlus_latest|].
  intros Hall. by rewrite filter_all.
Qed.

Lemma computeBeginnerPlus_one_point_per_row_witness :
  ScorePoint.date
    <$> (computeBeginnerPlus
           [FeatureRow.mk "2024-01-02" (Num (Fin 0.01)) (Num (Fin 100)) Null Null] (Fin 2.5)).1
  = FeatureRow.date
      <$> filter (λ o, not_null (FeatureRow.spread o) = true)
            [FeatureRow.mk "2024-01-02" (Num (Fin 0.01)) (Num (Fin 100)) Null Null].
Proof.
  apply (computeBeginnerPlus_one_point_per_row
           [FeatureRow.mk "2024-01-02" (Num (Fin 0.01)) (Num (Fin 100)) Null Null] (Fin 2.5)).
  repeat constructor.
Defined.

(** ** A null repo feature scores zero (C8) *)

Lemma score_row_null_repo (mS sS mR sR k : number) (o : FeatureRow.t) :
  FeatureRow.repoLogChg5 o = Null →
  ScorePoint.pRepo (score_row mS sS mR sR k o) = Fin 0.
Proof. unfold score_row. simpl. by intros ->. Qed.

Lemma repoLog_length (repoObs : list Obs.t) : length (repoLog repoObs) = length repoObs.
Proof. unfold repoLog. apply length_fmap. Qed.

Lemma repoLogChg5_length (repoObs : list Obs.t) :
  length (repoLogChg5 repoObs) = length repoObs.
Proof. unfold repoLogChg5. by rewrite length_imap, repoLog_length. Qed.

Lemma repoDelta1_length (repoObs : list Obs.t) :
  length (repoDelta1 repoObs) = length repoObs.
Proof. unfold repoDelta1. by rewrite length_imap. Qed.

(** Below index 5 the log change is null. *)
Lemma repoLogChg5_null_below_5 (repoObs : list Obs.t) (i : nat) (c : Obs.t) :
  repoLogChg5 repoObs !! i = Some c → i < 5 → Obs.value c = Null.
Proof.
  unfold repoLogChg5. intros [y [_ ->]]%list_lookup_imap_Some Hi.
  cbv zeta. destruct (Nat.leb_spec 5 i); [lia|reflexivity].
Qed.

Lemma repoLogChg5_short (repoObs : list Obs.t) :
  length repoObs ≤ 5 → Forall (λ c, Obs.value c = Null) (repoLogChg5 repoObs).
Proof.
  intros Hlen. apply Forall_lookup. intros i c Hc.
  apply (repoLogChg5_null_below_5 repoObs i c Hc).
  apply lookup_lt_Some in Hc. rewrite repoLogChg5_length in Hc. lia.
Qed.

Lemma non_null_Map_all_null (series : list Obs.t) :
  Forall (λ c, Obs.value c = Null) series → non_null_Map series = ∅.
Proof.
  intros Hall. unfold non_null_Map. rewrite filter_none; [done|].
  eapply Forall_impl; [exact Hall|]. intros c -> . simpl. discriminate.
Qed.

Lemma alignedForModel_short_repo (sofrObs effrObs repoObs : list Obs.t) :
  length repoObs ≤ 5 →
  Forall (λ o, FeatureRow.repoLogChg5 o = Null) (alignedForModel sofrObs effrObs repoObs).
Proof.
  intros Hlen. unfold alignedForModel.
  rewrite (non_null_Map_all_null (repoLogChg5 repoObs)) by by apply repoLogChg5_short.
  apply Forall_fmap, Forall_forall. intros o _. simpl.
  unfold get_or_null. by rewrite lookup_empty.
Qed.

(** C8.  A row whose [repoLogChg5] is null gives a point with
    [pRepo = 0]; for a repo volume series of length 4 every point that
    [renderCorePanels] computes has [pRepo = 0]. *)
Theorem null_repo_feature_scores_zero :
  (∀ (rows : list FeatureRow.t) (k : number) (i : nat) (o : FeatureRow.t),
     rows !! i = Some o → FeatureRow.repoLogChg5 o = Null →
     ∃ p, (computeBeginnerPlus rows k).1 !! i = Some p ∧
          ScorePoint.date p = FeatureRow.date o ∧ ScorePoint.pRepo p = Fin 0) ∧
  (∀ (sofrObs effrObs repoObs : list Obs.t) (k : number),
     length repoObs = 4 →
     Forall (λ p, ScorePoint.pRepo p = Fin 0) (corePoints sofrObs effrObs repoObs k).1).
Proof.
  split.
  - intros rows k i o Hi Hnull. eexists. split.
    + rewrite computeBeginnerPlus_lookup, Hi. reflexivity.
    + split; [reflexivity|]. by apply score_row_null_repo.
  - intros sofrObs effrObs repoObs k Hlen. unfold corePoints.
    rewrite computeBeginnerPlus_points. apply Forall_fmap.
    eapply Forall_impl; [apply alignedForModel_short_repo; lia|].
    intros o Ho. by apply score_row_null_repo.
Qed.

Lemma null_repo_feature_scores_zero_witness :
  length repo_4 = 4 ∧
  Forall (λ p, ScorePoint.pRepo p = Fin 0) (corePoints sofr_4 effr_4 repo_4 (Fin 2.5)).1.
Proof.
  split; [reflexivity|].
  apply (proj2 null_repo_feature_scores_zero sofr_4 effr_4 repo_4 (Fin 2.5)). reflexivity.
Defined.

(** ** The delta and log-change features (C6) *)

(** The index the callbacks read is always inside the array. *)
Lemma value_at_in_range (series : list Obs.t) (i lag : nat) :
  i < length series → 1 ≤ lag → lag ≤ i →
  ∃ q, series !! (i - lag) = Some q ∧ value_at series (i - lag) = Obs.value q.
Proof.
  intros Hi Hlag Hle.
  destruct (lookup_lt_is_Some_2 series (i - lag)) as [q Hq]; [lia|].
  exists q. split; [done|]. unfold value_at. by rewrite Hq.
Qed.

Lemma repoDelta1_lookup (repoObs : list Obs.t) (i : nat) (o : Obs.t) :
  repoObs !! i = Some o →
  repoDelta1 repoObs !! i =
    Some (Obs.mk (Obs.date o)
            (match (if Nat.leb 1 i then value_at repoObs (i - 1) else Null) with
             | Null => Null
             | Num p => Num (num_sub (to_number (Obs.value o)) p)
             end)).
Proof. intros Ho. unfold repoDelta1. by rewrite list_lookup_imap, Ho. Qed.

Lemma repoLogChg5_lookup (repoObs : list Obs.t) (i : nat) (o : Obs.t) :
  repoObs !! i = Some o →
  repoLogChg5 repoObs !! i =
    Some (Obs.mk (Obs.date o)
            (match (if Nat.leb 5 i then value_at (repoLog repoObs) (i - 5) else Null) with
             | Null => Null
             | Num p => Num (num_sub (math_log1p (to_number (Obs.value o))) p)
             end)).
Proof.
  intros Ho. unfold repoLogChg5, repoLog.
  by rewrite list_lookup_imap, list_lookup_fmap, Ho.
Qed.

Lemma value_at_repoLog (repoObs : list Obs.t) (j : nat) (q : Obs.t) :
  repoObs !! j = Some q →
  value_at (repoLog repoObs) j = Num (math_log1p (to_number (Obs.value q))).
Proof. intros Hq. unfold value_at, repoLog. by rewrite list_lookup_fmap, Hq. Qed.

Lemma math_log1p_fin (x : R) : (-1 < x)%R → math_log1p (Fin x) = Fin (ln (1 + x)).
Proof. intros Hx. unfold math_log1p. r_cases. Qed.

(** Against C6 as stated: in [repo_with_missing] the delta at index 2 is
    null, because the value before it is null. *)
Lemma repoDelta1_null_after_missing :
  repoDelta1 repo_with_missing !! 2 = Some (Obs.mk "2024-01-04" Null) ∧
  ¬ (∀ i d, repoDelta1 repo_with_missing !! i = Some d → (Obs.value d = Null ↔ i = 0)).
Proof.
  split; [reflexivity|].
  intros H. specialize (H 2 (Obs.mk "2024-01-04" Null) eq_refl).
  simpl in H. destruct H as [H _]. specialize (H eq_refl). discriminate.
Qed.

(** C6, amended.  The 1-step delta at index [i] is null exactly when
    [i = 0] or the value at [i-1] is null, and equals
    [value[i] - value[i-1]] when both are numbers; the 5-step log change
    is null exactly for [i < 5], and for [i >= 5] equals
    [log1p(value[i]) - log1p(value[i-5])], which is
    [log(1 + value[i]) - log(1 + value[i-5])] for values above -1. *)
Theorem repo_features_at (repoObs : list Obs.t) (i : nat) (o : Obs.t) :
  repoObs !! i = Some o →
  ∃ d c,
    repoDelta1 repoObs !! i = Some d ∧ repoLogChg5 repoObs !! i = Some c ∧
    Obs.date d = Obs.date o ∧ Obs.date c = Obs.date o ∧
    (Obs.value d = Null ↔
       i = 0 ∨ ∃ q, repoObs !! (i - 1) = Some q ∧ Obs.value q = Null) ∧
    (∀ q x y, 1 ≤ i → repoObs !! (i - 1) = Some q →
       Obs.value o = Num x → Obs.value q = Num y →
       Obs.value d = Num (num_sub x y)) ∧
    (Obs.value c = Null ↔ i < 5) ∧
    (∀ q, 5 ≤ i → repoObs !! (i - 5) = Some q →
       Obs.value c = Num (num_sub (math_log1p (to_number (Obs.value o)))
                                  (math_log1p (to_number (Obs.value q))))) ∧
    (∀ q x y, 5 ≤ i → repoObs !! (i - 5) = Some q →
       Obs.value o = Num (Fin x) → Obs.value q = Num (Fin y) →
       (-1 < x)%R → (-1 < y)%R →
       Obs.value c = Num (Fin (ln (1 + x) - ln (1 + y)))).
Proof.
  intros Ho. pose proof (lookup_lt_Some _ _ _ Ho) as Hlt.
  eexists _, _.
  split; [by apply repoDelta1_lookup|]. split; [by apply repoLogChg5_lookup|].
  split; [reflexivity|]. split; [reflexivity|]. cbn [Obs.value Obs.date].
  split; [|split; [|split; [|split]]].
  - destruct (Nat.leb_spec 1 i) as [Hi|Hi].
    + destruct (value_at_in_range repoObs i 1) as [q [Hq ->]]; [lia..|].
      split.
      * intros Hd. right. exists q. split; [done|]. by destruct (Obs.value q).
      * intros [->|[q' [Hq' Hnull]]]; [lia|]. rewrite Hq in Hq'.
        injection Hq' as <-. by rewrite Hnull.
    + split; [intros _; left; lia|done].
  - intros q x y Hi Hq Hx Hy. destruct (Nat.leb_spec 1 i); [|lia].
    unfold value_at. by rewrite Hq, Hx, Hy.
  - destruct (Nat.leb_spec 5 i) as [Hi|Hi].
    + destruct (value_at_in_range repoObs i 5) as [q [Hq _]]; [lia..|].
      rewrite (value_at_repoLog _ _ _ Hq). split; [done|lia].
    + split; [done|]. done.
  - intros q Hi Hq. destruct (Nat.leb_spec 5 i); [|lia].
    by rewrite (value_at_repoLog _ _ _ Hq).
  - intros q x y Hi Hq Hx Hy Hx1 Hy1. destruct (Nat.leb_spec 5 i); [|lia].
    rewrite (value_at_repoLog _ _ _ Hq), Hx, Hy. cbn [to_number].
    rewrite !math_log1p_fin by done. reflexivity.
Qed.

Lemma repo_features_at_witness :
  ∃ d c,
    repoDelta1 repo_6 !! 5 = Some d ∧ repoLogChg5 repo_6 !! 5 = Some c ∧
    Obs.value d = Num (num_sub (Fin 150) (Fin 40)) ∧
    Obs.value c = Num (Fin (ln (1 + 150) - ln (1 + 100))).
Proof.
  destruct (repo_features_at repo_6 5 (Obs.mk "2024-01-09" (Num (Fin 150))) eq_refl)
    as (d & c & Hd & Hc & _ & _ & _ & Hdv & _ & _ & Hcv).
  exists d, c. split; [exact Hd|]. split; [exact Hc|]. split.
  - apply (Hdv (Obs.mk "2024-01-08" (Num (Fin 40)))); [lia|reflexivity..].
  - apply (Hcv (Obs.mk "2024-01-02" (Num (Fin 100)))); [lia|reflexivity..|lra|lra].
Defined.

(** ** The date join (C3) *)

Section new_Map.
Implicit Types (entries : list (string * value)) (m : gmap string value).

Lemma new_Map_snoc entries (d : string) (v : value) :
  new_Map (entries ++ [(d, v)]) = <[d := v]> (new_Map entries).
Proof. unfold new_Map. by rewrite foldl_app. Qed.

(** [has]: the keys of the map are the first components of the entries. *)
Lemma new_Map_has entries (d : string) :
  is_Some (new_Map entries !! d) ↔ d ∈ entries.*1.
Proof.
  induction entries as [|[d' v'] entries IH] using rev_ind.
  - unfold new_Map. simpl. rewrite lookup_empty.
    split; [by intros [? ?]|by intros ?%elem_of_nil].
  - rewrite new_Map_snoc, fmap_app, elem_of_app. simpl.
    rewrite list_elem_of_singleton.
    destruct (decide (d' = d)) as [->|Hne].
    + rewrite lookup_insert_eq. split; [by right|by eexists].
    + rewrite lookup_insert_ne by done. rewrite IH.
      split; [by left|by intros [?|?]].
Qed.

(** [get]: a value found was entered under that key. *)
Lemma new_Map_get entries (d : string) (v : value) :
  new_Map entries !! d = Some v → (d, v) ∈ entries.
Proof.
  induction entries as [|[d' v'] entries IH] using rev_ind.
  - unfold new_Map. simpl. by rewrite lookup_empty.
  - rewrite new_Map_snoc, elem_of_app, list_elem_of_singleton.
    destruct (decide (d' = d)) as [->|Hne].
    + rewrite lookup_insert_eq. intros [= ->]. by right.
    + rewrite lookup_insert_ne by done. intros ?%IH. by left.
Qed.

(** For a repeated key the last entry is the one found. *)
Lemma new_Map_last_wins entries (d : string) (v : value) :
  new_Map (entries ++ [(d, v)]) !! d = Some v.
Proof. by rewrite new_Map_snoc, lookup_insert_eq. Qed.
End new_Map.

Lemma align_loop (mapB : gmap string value) (seriesA : list Obs.t) (out : list Aligned.t) :
  foldl (align_step mapB) out seriesA = out ++ omap (align_row mapB) seriesA.
Proof.
  revert out. induction seriesA as [|a seriesA IH]; intros out; simpl.
  - by rewrite app_nil_r.
  - rewrite IH. unfold align_step, align_row.
    destruct (mapB !! Obs.date a); simpl; [by rewrite <- app_assoc|done].
Qed.

Lemma alignByDate_omap (seriesA seriesB : list Obs.t) :
  alignByDate seriesA seriesB =
  omap (align_row (new_Map ((λ o, (Obs.date o, Obs.value o)) <$> seriesB))) seriesA.
Proof. unfold alignByDate. by rewrite align_loop. Qed.

Lemma mapB_has (seriesB : list Obs.t) (d : string) :
  is_Some (new_Map ((λ o, (Obs.date o, Obs.value o)) <$> seriesB) !! d)
  ↔ d ∈ Obs.date <$> seriesB.
Proof. rewrite new_Map_has, <- list_fmap_compose. done. Qed.

(** The dates of the output are the dates of [seriesA] found in
    [seriesB], in the order of [seriesA]. *)
Lemma alignByDate_dates (seriesA seriesB : list Obs.t) :
  Aligned.date <$> alignByDate seriesA seriesB =
  filter (λ d, d ∈ Obs.date <$> seriesB) (Obs.date <$> seriesA).
Proof.
  rewrite alignByDate_omap.
  induction seriesA as [|a seriesA IH]; [done|].
  simpl. rewrite filter_cons. unfold align_row at 1.
  destruct (decide (Obs.date a ∈ Obs.date <$> seriesB)) as [Hin|Hout].
  - apply mapB_has in Hin as [vb Hvb]. rewrite Hvb. simpl. f_equal. exact IH.
  - destruct (new_Map _ !! Obs.date a) as [vb|] eqn:Hvb; [|exact IH].
    exfalso. apply Hout, mapB_has. by eexists.
Qed.

(** Each output row comes from an element of [seriesA] and an element of
    [seriesB] with the same date. *)
Lemma alignByDate_row (seriesA seriesB : list Obs.t) (r : Aligned.t) :
  r ∈ alignByDate seriesA seriesB →
  Obs.mk (Aligned.date r) (Aligned.a r) ∈ seriesA ∧
  Obs.mk (Aligned.date r) (Aligned.b r) ∈ seriesB.
Proof.
  rewrite alignByDate_omap, list_elem_of_omap. intros (a & Ha & Hr).
  unfold align_row in Hr.
  destruct (new_Map _ !! Obs.date a) as [vb|] eqn:Hvb; [|done].
  injection Hr as <-. simpl. split; [by destruct a|].
  apply new_Map_get, list_elem_of_fmap in Hvb as (b & Hb & Hin).
  injection Hb as -> ->. by destruct b.
Qed.

(** Every element of [seriesA] whose date occurs in [seriesB] is emitted. *)
Lemma alignByDate_complete (seriesA seriesB : list Obs.t) (a : Obs.t) :
  a ∈ seriesA → Obs.date a ∈ Obs.date <$> seriesB →
  ∃ r, r ∈ alignByDate seriesA seriesB ∧
       Aligned.date r = Obs.date a ∧ Aligned.a r = Obs.value a.
Proof.
  intros Ha [vb Hvb]%mapB_has. eexists. split.
  - rewrite alignByDate_omap, list_elem_of_omap. exists a. split; [done|].
    unfold align_row. by rewrite Hvb.
  - done.
Qed.

(** The output keeps the order of [seriesA]. *)
Lemma alignByDate_order (seriesA seriesB : list Obs.t) :
  (λ r, Obs.mk (Aligned.date r) (Aligned.a r)) <$> alignByDate seriesA seriesB
    `sublist_of` seriesA.
Proof.
  rewrite alignByDate_omap.
  induction seriesA as [|a seriesA IH]; [done|].
  simpl. unfold align_row at 1. destruct (new_Map _ !! Obs.date a); simpl.
  - destruct a. by apply sublist_skip.
  - by apply sublist_cons.
Qed.

Lemma alignByDate_length_A (seriesA seriesB : list Obs.t) :
  length (alignByDate seriesA seriesB) ≤ length seriesA.
Proof.
  rewrite <- (length_fmap Aligned.date), alignByDate_dates.
  etrans; [apply length_filter|]. by rewrite length_fmap.
Qed.

Lemma alignByDate_length_B (seriesA seriesB : list Obs.t) :
  NoDup (Obs.date <$> seriesA) →
  length (alignByDate seriesA seriesB) ≤ length seriesB.
Proof.
  intros Hnd.
  rewrite <- (length_fmap Aligned.date), alignByDate_dates.
  rewrite <- (length_fmap Obs.date seriesB).
  apply submseteq_length, NoDup_submseteq.
  - by apply NoDup_filter.
  - by intros d [Hd _]%list_elem_of_filter.
Qed.

(** Against C3 as stated: with a date repeated in [seriesA] the output
    has one row per repetition and is longer than [seriesB]. *)
Lemma alignByDate_repeated_date_longer :
  alignByDate series_repeated_date series_one_date =
    [ Aligned.mk "2024-01-02" (Num (Fin 5.31)) (Num (Fin 5.33));
      Aligned.mk "2024-01-02" (Num (Fin 5.32)) (Num (Fin 5.33)) ] ∧
  ¬ (length (alignByDate series_repeated_date series_one_date)
       ≤ Nat.min (length series_repeated_date) (length series_one_date)).
Proof.
  assert (H : alignByDate series_repeated_date series_one_date =
    [ Aligned.mk "2024-01-02" (Num (Fin 5.31)) (Num (Fin 5.33));
      Aligned.mk "2024-01-02" (Num (Fin 5.32)) (Num (Fin 5.33)) ]) by reflexivity.
  split; [exact H|]. rewrite H. simpl. lia.
Qed.

(** C3, amended.  [alignByDate] emits exactly the rows of [seriesA] whose
    date occurs in [seriesB], in the order of [seriesA]; the date of every
    emitted row occurs verbatim in both series; the output is no longer
    than [seriesA], and no longer than [seriesB] either when the dates of
    [seriesA] are pairwise distinct. *)
Theorem alignByDate_inner_join (seriesA seriesB : list Obs.t) :
  Aligned.date <$> alignByDate seriesA seriesB
    = filter (λ d, d ∈ Obs.date <$> seriesB) (Obs.date <$> seriesA) ∧
  (∀ r, r ∈ alignByDate seriesA seriesB →
     Obs.mk (Aligned.date r) (Aligned.a r) ∈ seriesA ∧
     Obs.mk (Aligned.date r) (Aligned.b r) ∈ seriesB) ∧
  (∀ a, a ∈ seriesA → Obs.date a ∈ Obs.date <$> seriesB →
     ∃ r, r ∈ alignByDate seriesA seriesB ∧
          Aligned.date r = Obs.date a ∧ Aligned.a r = Obs.value a) ∧
  (λ r, Obs.mk (Aligned.date r) (Aligned.a r)) <$> alignByDate seriesA seriesB
    `sublist_of` seriesA ∧
  length (alignByDate seriesA seriesB) ≤ length seriesA ∧
  (NoDup (Obs.date <$> seriesA) →
   length (alignByDate seriesA seriesB) ≤ Nat.min (length seriesA) (length seriesB)).
Proof.
  split; [apply alignByDate_dates|].
  split; [apply alignByDate_row|].
  split; [apply alignByDate_complete|].
  split; [apply alignByDate_order|].
  split; [apply alignByDate_length_A|].
  intros Hnd. apply Nat.min_glb; [apply alignByDate_length_A|by apply alignByDate_length_B].
Qed.

Lemma alignByDate_inner_join_witness :
  NoDup (Obs.date <$> sofr_4) ∧
  length (alignByDate sofr_4 effr_4) ≤ Nat.min (length sofr_4) (length effr_4).
Proof.
  assert (Hnd : NoDup (Obs.date <$> sofr_4)) by (apply (bool_decide_unpack _); reflexivity).
  split; [exact Hnd|].
  exact (proj2 (proj2 (proj2 (proj2 (proj2 (alignByDate_inner_join sofr_4 effr_4))))) Hnd).
Defined.

(** ** The sigmoid and the tail probability (C4, C5) *)

Lemma sigmoid_fin (x : R) : sigmoid (Fin x) = Fin (logistic x).
Proof.
  unfold sigmoid, logistic. simpl. pose proof (exp_pos (- x)).
  destruct (Reqb (1 + exp (- x)) 0) eqn:E; [apply Reqb_true in E; lra|done].
Qed.

Lemma sigmoid_NegInf : sigmoid NegInf = Fin 0.
Proof. reflexivity. Qed.

Lemma sigmoid_PosInf : sigmoid PosInf = Fin 1.
Proof. unfold sigmoid. simpl. r_cases. Qed.

Lemma sigmoid_NaN : sigmoid NaN = NaN.
Proof. reflexivity. Qed.

Lemma logistic_range (x : R) : (0 < logistic x < 1)%R.
Proof.
  unfold logistic. pose proof (exp_pos (- x)) as He.
  assert (H1 : (0 < / (1 + exp (- x)))%R) by (apply Rinv_0_lt_compat; lra).
  assert (H2 : (/ (1 + exp (- x)) < 1)%R).
  { rewrite <- Rinv_1 at 2. apply Rinv_lt_contravar; lra. }
  lra.
Qed.

Lemma logistic_unit (x : R) : (0 <= logistic x <= 1)%R.
Proof. pose proof (logistic_range x). lra. Qed.

Lemma exp_le (x y : R) : (x <= y)%R → (exp x <= exp y)%R.
Proof.
  intros [Hlt| ->]; [left; by apply exp_increasing|lra].
Qed.

Lemma logistic_mono (x y : R) : (x <= y)%R → (logistic x <= logistic y)%R.
Proof.
  intros Hxy. unfold logistic.
  pose proof (exp_pos (- x)). pose proof (exp_pos (- y)).
  assert (exp (- y) <= exp (- x))%R by (apply exp_le; lra).
  assert (/ (1 + exp (- x)) <= / (1 + exp (- y)))%R
    by (apply Rinv_le_contravar; lra).
  lra.
Qed.

(** [1 - logistic x] is below [exp (-x)], and [logistic x] below [exp x]. *)
Lemma logistic_upper_tail (x : R) : (1 - logistic x < exp (- x))%R.
Proof.
  unfold logistic. pose proof (exp_pos (- x)) as He.
  assert (H1 : (0 < / (1 + exp (- x)) < 1)%R)
    by (pose proof (logistic_range x) as Hr; unfold logistic in Hr; lra).
  replace (1 - 1 / (1 + exp (- x)))%R with (exp (- x) * / (1 + exp (- x)))%R
    by (field; lra).
  nra.
Qed.

Lemma logistic_lower_tail (x : R) : (logistic x < exp x)%R.
Proof.
  unfold logistic. pose proof (exp_pos (- x)) as He. pose proof (exp_pos x) as Hx.
  assert (Hm : (exp x * exp (- x) = 1)%R) by (rewrite <- exp_plus, Rplus_opp_r; apply exp_0).
  assert (H1 : (0 < / (1 + exp (- x)))%R) by (apply Rinv_0_lt_compat; lra).
  assert (H2 : ((1 + exp (- x)) * / (1 + exp (- x)) = 1)%R) by (field; lra).
  nra.
Qed.

(** [Math.max(0, Math.min(1, x))] is the clamp of the specification. *)
Lemma max_min_clamp (x : number) :
  math_max (Fin 0) (math_min (Fin 1) x) = spec_clamp x (Fin 0) (Fin 1).
Proof.
  unfold spec_clamp. destruct x as [| |x|]; simpl; r_cases.
Qed.

Lemma clamp_unit (x : R) :
  (0 <= x <= 1)%R → math_max (Fin 0) (math_min (Fin 1) (Fin x)) = Fin x.
Proof. intros Hx. simpl. r_cases. Qed.

(** The clamped value is NaN or lies between 0 and 1. *)
Lemma clamp_range (x : number) :
  math_max (Fin 0) (math_min (Fin 1) x) = NaN ∨
  ∃ p, math_max (Fin 0) (math_min (Fin 1) x) = Fin p ∧ (0 <= p <= 1)%R.
Proof.
  destruct x as [| |x|]; simpl; [by left|right..]; r_cases; eexists; (split; [reflexivity|lra]).
Qed.

Lemma tailProbFromZ_range (z k : number) :
  tailProbFromZ z k = NaN ∨
  ∃ p, tailProbFromZ z k = Fin p ∧ (0 <= p <= 1)%R.
Proof. apply clamp_range. Qed.

Lemma tailProbFromZ_fin (z k : R) :
  tailProbFromZ (Fin z) (Fin k) = Fin (logistic (2.2 * (Rabs z - k))).
Proof.
  unfold tailProbFromZ. cbn [math_abs num_sub num_neg num_add num_mul].
  rewrite sigmoid_fin. apply clamp_unit, logistic_unit.
Qed.

Lemma tailProbFromZ_inf (z : number) (k : R) :
  math_abs z = PosInf → tailProbFromZ z (Fin k) = Fin 1.
Proof.
  unfold tailProbFromZ. intros ->. cbn [num_sub num_neg num_add].
  replace (num_mul (Fin 2.2) PosInf) with PosInf by (simpl; r_cases).
  rewrite sigmoid_PosInf. apply clamp_unit. lra.
Qed.

Lemma tailProbFromZ_zero (k : number) :
  tailProbFromZ (Fin 0) k = sigmoid (num_neg (num_mul (Fin 2.2) k)).
Proof.
  destruct k as [| |k|].
  - reflexivity.
  - unfold tailProbFromZ. cbn [math_abs num_sub num_neg num_add].
    replace (num_mul (Fin 2.2) PosInf) with PosInf by (simpl; r_cases).
    replace (num_mul (Fin 2.2) NegInf) with NegInf by (simpl; r_cases).
    cbn [num_neg]. rewrite sigmoid_PosInf. apply clamp_unit. lra.
  - rewrite tailProbFromZ_fin. cbn [num_mul num_neg]. rewrite sigmoid_fin.
    rewrite Rabs_R0. do 2 f_equal. lra.
  - unfold tailProbFromZ. cbn [math_abs num_sub num_neg num_add].
    replace (num_mul (Fin 2.2) PosInf) with PosInf by (simpl; r_cases).
    replace (num_mul (Fin 2.2) NegInf) with NegInf by (simpl; r_cases).
    cbn [num_neg]. rewrite sigmoid_NegInf. apply clamp_unit. lra.
Qed.

(** C4.  [tailProbFromZ z k] is [clamp(sigmoid(2.2 * (|z| - k)), 0, 1)]
    with [sigmoid(x) = 1 / (1 + exp(-x))]; at [z = 0] it is
    [sigmoid(-2.2 k)]. *)
Theorem tailProbFromZ_spec (z k x : number) :
  tailProbFromZ z k = spec_tailProb z k ∧
  sigmoid x = num_div (Fin 1) (num_add (Fin 1) (math_exp (num_neg x))) ∧
  tailProbFromZ (Fin 0) k = sigmoid (num_neg (num_mul (Fin 2.2) k)).
Proof.
  split; [apply max_min_clamp|]. split; [reflexivity|apply tailProbFromZ_zero].
Qed.

Lemma math_abs_cases (z : number) :
  z = NaN ∨ math_abs z = PosInf ∨ ∃ r, z = Fin r.
Proof. destruct z; eauto. Qed.

Lemma tailProbFromZ_mono (k : R) (z1 z2 : number) :
  num_leb (math_abs z1) (math_abs z2) = true →
  num_leb (tailProbFromZ z1 (Fin k)) (tailProbFromZ z2 (Fin k)) = true.
Proof.
  intros Hle.
  destruct (math_abs_cases z1) as [->|[H1|[r1 ->]]]; [done|..];
    destruct (math_abs_cases z2) as [->|[H2|[r2 ->]]].
  - by destruct (math_abs z1).
  - rewrite !tailProbFromZ_inf by done. simpl. apply Rleb_true. lra.
  - rewrite H1 in Hle. done.
  - done.
  - rewrite tailProbFromZ_fin, tailProbFromZ_inf by done. simpl.
    apply Rleb_true. pose proof (logistic_range (2.2 * (Rabs r1 - k))). lra.
  - rewrite !tailProbFromZ_fin. simpl in *. apply Rleb_true in Hle.
    apply Rleb_true, logistic_mono. lra.
Qed.

Lemma tailProbFromZ_to_one (eps : R) :
  (0 < eps)%R →
  ∃ M : R, ∀ z k : R, (M <= Rabs z - k)%R →
    ∃ p, tailProbFromZ (Fin z) (Fin k) = Fin p ∧ (1 - eps < p <= 1)%R.
Proof.
  intros Heps. exists (- ln eps / 2.2 + 1)%R. intros z k Hz.
  eexists. split; [apply tailProbFromZ_fin|].
  set (t := (2.2 * (Rabs z - k))%R).
  pose proof (logistic_range t). pose proof (logistic_upper_tail t).
  assert (exp (- t) < eps)%R; [|lra].
  rewrite <- (exp_ln eps) by done. apply exp_increasing.
  unfold t. lra.
Qed.

Lemma tailProbFromZ_to_zero (eps : R) :
  (0 < eps)%R →
  ∃ M : R, ∀ z k : R, (M <= k - Rabs z)%R →
    ∃ p, tailProbFromZ (Fin z) (Fin k) = Fin p ∧ (0 <= p < eps)%R.
Proof.
  intros Heps. exists (- ln eps / 2.2 + 1)%R. intros z k Hz.
  eexists. split; [apply tailProbFromZ_fin|].
  set (t := (2.2 * (Rabs z - k))%R).
  pose proof (logistic_range t). pose proof (logistic_lower_tail t).
  assert (exp t < eps)%R; [|lra].
  rewrite <- (exp_ln eps) by done. apply exp_increasing.
  unfold t. lra.
Qed.

(** C5.  For a fixed sensitivity [k], [tailProbFromZ] is monotone in
    [|z|]; it comes as close to 1 as wanted once [|z|] is far enough above
    [k], and as close to 0 as wanted once [|z|] is far enough below [k]. *)
Theorem tailProbFromZ_monotone_limits :
  (∀ (k : R) (z1 z2 : number),
     num_leb (math_abs z1) (math_abs z2) = true →
     num_leb (tailProbFromZ z1 (Fin k)) (tailProbFromZ z2 (Fin k)) = true) ∧
  (∀ eps : R, (0 < eps)%R →
     ∃ M : R, ∀ z k : R, (M <= Rabs z - k)%R →
       ∃ p, tailProbFromZ (Fin z) (Fin k) = Fin p ∧ (1 - eps < p <= 1)%R) ∧
  (∀ eps : R, (0 < eps)%R →
     ∃ M : R, ∀ z k : R, (M <= k - Rabs z)%R →
       ∃ p, tailProbFromZ (Fin z) (Fin k) = Fin p ∧ (0 <= p < eps)%R).
Proof.
  split; [apply tailProbFromZ_mono|].
  split; [apply tailProbFromZ_to_one|apply tailProbFromZ_to_zero].
Qed.

Lemma tailProbFromZ_monotone_limits_witness :
  num_leb (math_abs (Fin 1)) (math_abs (Fin (-3))) = true ∧
  num_leb (tailProbFromZ (Fin 1) (Fin 2.5)) (tailProbFromZ (Fin (-3)) (Fin 2.5)) = true.
Proof.
  assert (H : num_leb (math_abs (Fin 1)) (math_abs (Fin (-3))) = true).
  { simpl. apply Rleb_true. rewrite Rabs_R1, Rabs_left by lra. lra. }
  split; [exact H|].
  exact (proj1 tailProbFromZ_monotone_limits 2.5%R (Fin 1) (Fin (-3)) H).
Defined.

(** ** The combined probability (C1) *)

Lemma combine_fin (a b : R) :
  combine (Fin a) (Fin b) = Fin (1 - (1 - a) * (1 - b)).
Proof. reflexivity. Qed.

Lemma score_row_pStress (mS sS mR sR k : number) (o : FeatureRow.t) :
  ScorePoint.pStress (score_row mS sS mR sR k o)
  = combine (ScorePoint.pSpread (score_row mS sS mR sR k o))
            (ScorePoint.pRepo (score_row mS sS mR sR k o)).
Proof. reflexivity. Qed.

Lemma score_row_inputs (mS sS mR sR k : number) (o : FeatureRow.t) :
  (ScorePoint.pSpread (score_row mS sS mR sR k o) = NaN ∨
   ∃ a, ScorePoint.pSpread (score_row mS sS mR sR k o) = Fin a ∧ (0 <= a <= 1)%R) ∧
  (ScorePoint.pRepo (score_row mS sS mR sR k o) = NaN ∨
   ∃ b, ScorePoint.pRepo (score_row mS sS mR sR k o) = Fin b ∧ (0 <= b <= 1)%R).
Proof.
  split; [apply tailProbFromZ_range|].
  unfold score_row. simpl. destruct (FeatureRow.repoLogChg5 o).
  - right. exists 0%R. split; [done|lra].
  - apply tailProbFromZ_range.
Qed.




(** ** The guarded standard deviation (C7) *)

Lemma std_few (arr : list value) :
  length (finite_values arr) < 2 → std arr = NaN.
Proof.
  intros Hlen. unfold std. cbv zeta.
  destruct (Nat.ltb_spec (length (finite_values arr)) 2); [done|lia].
Qed.

Lemma js_or_NaN (b : number) : js_or NaN b = b.
Proof. reflexivity. Qed.

Lemma epsilon_positive : (0 < 1e-9)%R.
Proof. lra. Qed.

Lemma finite_values_single (arr : list value) (x : R) :
  length (finite_values arr) < 2 → Num (Fin x) ∈ arr →
  finite_values arr = [Num (Fin x)].
Proof.
  intros Hlen Hin.
  assert (Hf : Num (Fin x) ∈ finite_values arr) by (by apply list_elem_of_filter).
  destruct (finite_values arr) as [|v [|w l]]; simpl in Hlen; [|by apply list_elem_of_singleton in Hf as <-|lia].
  by apply elem_of_nil in Hf.
Qed.

Lemma mean_single (arr : list value) (x : R) :
  finite_values arr = [Num (Fin x)] → mean arr = Fin x.
Proof.
  intros Hf. unfold mean. cbv zeta. rewrite Hf. simpl. r_cases.
Qed.

Lemma zscore_lone_value (x : R) : zscore (Fin x) (Fin x) (Fin 1e-9) = Fin 0.
Proof. unfold zscore. simpl. r_cases. Qed.

(** With fewer than two finite values the divisor is [1e-9] and a finite
    value of the series has z-score 0. *)
Lemma zscore_guarded (arr : list value) :
  length (finite_values arr) < 2 →
  js_or (std arr) (Fin 1e-9) = Fin 1e-9 ∧
  ∀ x, Num (Fin x) ∈ arr →
       zscore (Fin x) (mean arr) (js_or (std arr) (Fin 1e-9)) = Fin 0.
Proof.
  intros Hlen. rewrite std_few by done. split; [reflexivity|].
  intros x Hx. rewrite js_or_NaN, (mean_single arr x).
  - apply zscore_lone_value.
  - by apply finite_values_single.
Qed.

(** The divisor [std(arr) || 1e-9] is never zero and never NaN. *)
Lemma guarded_divisor (a : number) :
  js_or a (Fin 1e-9) ≠ Fin 0 ∧ js_or a (Fin 1e-9) ≠ NaN.
Proof.
  unfold js_or. destruct a as [| |r|]; simpl; try (split; [intros [= H]; lra|done]); try done.
  destruct (Reqb r 0) eqn:E; simpl.
  - split; [intros [= H]; lra|done].
  - apply Reqb_false in E. split; [congruence|done].
Qed.

Lemma elem_of_repoVals (rows : list FeatureRow.t) (i : nat) (o : FeatureRow.t) (n : number) :
  rows !! i = Some o → FeatureRow.repoLogChg5 o = Num n → Num n ∈ repoVals rows.
Proof.
  intros Hi Hn. unfold repoVals. apply list_elem_of_filter. split; [done|].
  rewrite <- Hn. apply list_elem_of_fmap_2. by eapply list_elem_of_lookup_2.
Qed.

Lemma elem_of_spreadVals (rows : list FeatureRow.t) (i : nat) (o : FeatureRow.t) :
  rows !! i = Some o → FeatureRow.spread o ∈ spreadVals rows.
Proof.
  intros Hi. unfold spreadVals. apply list_elem_of_fmap_2. by eapply list_elem_of_lookup_2.
Qed.

Lemma mean_no_finite (arr : list value) : finite_values arr = [] → mean arr = NaN.
Proof. intros H. unfold mean. cbv zeta. by rewrite H. Qed.

Lemma zscore_nan_mean (x s : number) : zscore x NaN s = NaN.
Proof. unfold zscore. by destruct x. Qed.

Lemma tailProbFromZ_nan (k : number) : tailProbFromZ NaN k = NaN.
Proof. reflexivity. Qed.

(** Against C7 as stated: a single row with a null spread is scored, the
    series has no finite value, and the z-score of the row is NaN. *)
Lemma no_finite_value_zscore_nan :
  length (finite_values
            (spreadVals [FeatureRow.mk "2024-01-03" Null Null Null Null])) < 2 ∧
  ScorePoint.zSpread
    <$> (computeBeginnerPlus [FeatureRow.mk "2024-01-03" Null Null Null Null] (Fin 2.5)).1 !! 0
  = Some NaN.
Proof. split; [simpl; lia|reflexivity]. Qed.

(** C7, amended.  When a feature series has fewer than two finite values,
    [std] is NaN and the divisor of the z-score is the positive constant
    [1e-9]: every row is scored with [(value - mean) / 1e-9], a [null]
    spread read as 0.  With one finite value [x] the mean is [x], so the
    z-score is 0 for that value and [(0 - x) / 1e-9] for a row with a null
    spread; with no finite value the mean is NaN and so is the z-score of
    every row that is scored.  The same holds for the repo feature of the
    rows where it is not null. *)
Theorem sparse_series_zscore (rows : list FeatureRow.t) (k : number) :
  (0 < 1e-9)%R ∧
  (length (finite_values (spreadVals rows)) < 2 →
     std (spreadVals rows) = NaN ∧
     ∀ i o, rows !! i = Some o →
       ∃ p, (computeBeginnerPlus rows k).1 !! i = Some p ∧
            ScorePoint.zSpread p
              = zscore (to_number (FeatureRow.spread o))
                       (mean (spreadVals rows)) (Fin 1e-9) ∧
            (∀ x, FeatureRow.spread o = Num (Fin x) → ScorePoint.zSpread p = Fin 0) ∧
            (∀ x, finite_values (spreadVals rows) = [Num (Fin x)] →
                  FeatureRow.spread o = Null →
                  ScorePoint.zSpread p = Fin ((0 - x) / 1e-9)) ∧
            (finite_values (spreadVals rows) = [] → ScorePoint.zSpread p = NaN)) ∧
  (length (finite_values (repoVals rows)) < 2 →
     std (repoVals rows) = NaN ∧
     ∀ i o n, rows !! i = Some o → FeatureRow.repoLogChg5 o = Num n →
       ∃ p, (computeBeginnerPlus rows k).1 !! i = Some p ∧
            ScorePoint.pRepo p
              = tailProbFromZ (zscore n (mean (repoVals rows)) (Fin 1e-9)) k ∧
            (∀ x, n = Fin x →
                  zscore n (mean (repoVals rows)) (Fin 1e-9) = Fin 0) ∧
            (finite_values (repoVals rows) = [] → ScorePoint.pRepo p = NaN)).
Proof.
  split; [apply epsilon_positive|]. split.
  - intros Hlen. destruct (zscore_guarded _ Hlen) as [Hs Hz].
    split; [by apply std_few|].
    intros i o Hi. eexists. split; [rewrite computeBeginnerPlus_lookup, Hi; reflexivity|].
    unfold score_of, score_row. cbn [ScorePoint.zSpread]. rewrite Hs.
    split; [reflexivity|]. split; [|split].
    + intros x Hx. rewrite Hx. cbn [to_number].
      assert (Hin : Num (Fin x) ∈ spreadVals rows)
        by (rewrite <- Hx; by eapply elem_of_spreadVals).
      pose proof (Hz x Hin) as H0. by rewrite Hs in H0.
    + intros x Hone Hnull. rewrite Hnull, (mean_single _ x Hone).
      cbn [to_number]. unfold zscore. simpl. r_cases.
    + intros Hnone. rewrite (mean_no_finite _ Hnone). apply zscore_nan_mean.
  - intros Hlen. destruct (zscore_guarded _ Hlen) as [Hs Hz].
    split; [by apply std_few|].
    intros i o n Hi Hn. eexists.
    split; [rewrite computeBeginnerPlus_lookup, Hi; reflexivity|].
    unfold score_of, score_row. cbn [ScorePoint.pRepo]. rewrite Hn, Hs. cbv zeta.
    split; [reflexivity|]. split.
    + intros x ->.
      assert (Hin : Num (Fin x) ∈ repoVals rows) by (by eapply elem_of_repoVals).
      pose proof (Hz x Hin) as H0. by rewrite Hs in H0.
    + intros Hnone. by rewrite (mean_no_finite _ Hnone), zscore_nan_mean.
Qed.

Lemma sparse_series_zscore_witness :
  length (finite_values (spreadVals rows_with_null_spread)) < 2 ∧
  ∃ p, (computeBeginnerPlus rows_with_null_spread (Fin 2.5)).1 !! 1 = Some p ∧
       ScorePoint.zSpread p = Fin ((0 - 0.01) / 1e-9).
Proof.
  assert (Hlen : length (finite_values (spreadVals rows_with_null_spread)) < 2)
    by (simpl; lia).
  split; [exact Hlen|].
  destruct (sparse_series_zscore rows_with_null_spread (Fin 2.5)) as (_ & Hs & _).
  destruct (Hs Hlen) as (_ & Hz).
  destruct (Hz 1 (FeatureRow.mk "2024-01-03" Null (Num (Fin 120)) (Num (Fin 20)) Null)
              eq_refl) as (p & Hp & _ & _ & Hnull & _).
  exists p. split; [exact Hp|]. by apply (Hnull 0.01%R).
Defined.

(** ** The rows built by [renderCorePanels] *)

(** The spread of every row given to the model is a number: it is the
    difference computed in [spread]. *)
Lemma alignedForModel_spread_not_null (sofrObs effrObs repoObs : list Obs.t) :
  Forall (λ o, not_null (FeatureRow.spread o) = true)
         (alignedForModel sofrObs effrObs repoObs).
Proof.
  unfold alignedForModel, aligned. rewrite <- list_fmap_compose.
  apply Forall_fmap, Forall_forall. intros r Hr. simpl.
  apply alignByDate_row in Hr as [Ha _].
  unfold spread in Ha. apply list_elem_of_fmap in Ha as (a & Ha & _).
  injection Ha as _ ->. reflexivity.
Qed.

(** In [renderCorePanels] the points are therefore one per row with a
    non-null spread. *)
Lemma corePoints_one_per_spread (sofrObs effrObs repoObs : list Obs.t) (k : number) :
  ScorePoint.date <$> (corePoints sofrObs effrObs repoObs k).1
  = FeatureRow.date
      <$> filter (λ o, not_null (FeatureRow.spread o) = true)
            (alignedForModel sofrObs effrObs repoObs).
Proof.
  unfold corePoints. rewrite filter_all by apply alignedForModel_spread_not_null.
  rewrite computeBeginnerPlus_points, <- list_fmap_compose. by apply list_fmap_ext.
Qed.

(** ** The model on small inputs *)

(** The spreads of the first three days of [sofr_4] and [effr_4]. *)
Example spread_three_days :
  spread (take 3 sofr_4) (take 3 effr_4) =
    [ Obs.mk "2024-01-02" (Num (Fin (5.31 - 5.33)));
      Obs.mk "2024-01-03" (Num (Fin (5.32 - 5.31)));
      Obs.mk "2024-01-04" (Num (Fin (5.30 - 5.29))) ].
Proof. reflexivity. Qed.

(** In [rows_with_null_spread] the mean is taken over the one finite
    spread, the divisor is [1e-9], and the row with the null spread is
    scored with its spread read as 0. *)
Example null_spread_row_zscore :
  ScorePoint.zSpread <$> (computeBeginnerPlus rows_with_null_spread (Fin 2.5)).1 !! 1
  = Some (Fin (-10000000)).
Proof.
  rewrite computeBeginnerPlus_lookup. simpl. f_equal.
  unfold score_of, score_row. cbn [ScorePoint.zSpread FeatureRow.spread to_number].
  rewrite std_few by (simpl; lia). rewrite js_or_NaN.
  rewrite (mean_single _ 0.01) by reflexivity.
  unfold zscore. simpl. r_cases.
Qed.

(** With no finite spread at all the mean is NaN and so is the z-score of
    the row. *)
Example no_finite_spread_zscore :
  ScorePoint.zSpread
    <$> (computeBeginnerPlus [FeatureRow.mk "2024-01-03" Null Null Null Null] (Fin 2.5)).1 !! 0
  = Some NaN.
Proof. reflexivity. Qed.

(** * Further properties of the script *)

(** ** [mean] and [std] in closed form *)




















(** ** A flat series *)







(** ** The z-scores of a series are centred and have unit deviation *)










(** ** More on the sigmoid and the tail probability *)

Lemma logistic_opp (x : R) : logistic (- x) = (1 - logistic x)%R.
Proof.
  unfold logistic. rewrite Ropp_involutive, exp_Ropp.
  pose proof (exp_pos x). field. split; lra.
Qed.

Lemma logistic_0 : logistic 0 = 0.5%R.
Proof. unfold logistic. rewrite Ropp_0, exp_0. lra. Qed.


Lemma sigmoid_cases (x : number) :
  match x with
  | NaN => sigmoid x = NaN
  | NegInf => sigmoid x = Fin 0
  | Fin r => sigmoid x = Fin (logistic r)
  | PosInf => sigmoid x = Fin 1
  end.
Proof.
  destruct x; [reflexivity|reflexivity|apply sigmoid_fin|apply sigmoid_PosInf].
Qed.

(** X5.  [sigmoid] is NaN at NaN, 0 at [-Infinity], one half at 0 and 1 at
    [+Infinity]; at every argument other than NaN its value is a number
    between 0 and 1, and it is monotone: a larger argument never gives a
    smaller value. *)
Theorem sigmoid_range_monotone (x y : number) :
  sigmoid NaN = NaN ∧ sigmoid NegInf = Fin 0 ∧
  sigmoid (Fin 0) = Fin 0.5 ∧ sigmoid PosInf = Fin 1 ∧
  (x = NaN ∨ ∃ s, sigmoid x = Fin s ∧ (0 <= s <= 1)%R) ∧
  (num_leb x y = true → num_leb (sigmoid x) (sigmoid y) = true).
Proof.
  split; [reflexivity|]. split; [reflexivity|].
  split; [by rewrite sigmoid_fin, logistic_0|]. split; [apply sigmoid_PosInf|].
  pose proof (sigmoid_cases x) as Hx. pose proof (sigmoid_cases y) as Hy. split.
  - destruct x as [| |r|]; [by left|right..]; rewrite Hx; eexists;
      (split; [reflexivity|]); try lra. apply logistic_unit.
  - destruct x as [| |r|], y as [| |q|]; try done; rewrite ?Hx, ?Hy; simpl;
      intros Hle; apply Rleb_true; try lra;
      try (pose proof (logistic_unit q); lra);
      try (pose proof (logistic_unit r); lra).
    apply Rleb_true in Hle. by apply logistic_mono.
Qed.

Lemma sigmoid_range_monotone_witness :
  num_leb (sigmoid (Fin (-3))) (sigmoid (Fin 3)) = true.
Proof.
  apply (sigmoid_range_monotone (Fin (-3)) (Fin 3)). simpl. apply Rleb_true. lra.
Defined.

(** The tail probability read off [t = |z| - k]. *)
Lemma tailProbFromZ_of_t (z k : number) :
  tailProbFromZ z k =
    match num_sub (math_abs z) k with
    | NaN => NaN
    | NegInf => Fin 0
    | Fin t => Fin (logistic (2.2 * t))
    | PosInf => Fin 1
    end.
Proof.
  unfold tailProbFromZ. cbv zeta. destruct (num_sub (math_abs z) k) as [| |t|].
  - reflexivity.
  - replace (num_mul (Fin 2.2) NegInf) with NegInf by (simpl; r_cases).
    rewrite sigmoid_NegInf. apply clamp_unit. lra.
  - cbn [num_mul]. rewrite sigmoid_fin. apply clamp_unit, logistic_unit.
  - replace (num_mul (Fin 2.2) PosInf) with PosInf by (simpl; r_cases).
    rewrite sigmoid_PosInf. apply clamp_unit. lra.
Qed.

Lemma math_abs_neg (z : number) : math_abs (num_neg z) = math_abs z.
Proof. destruct z as [| |r|]; simpl; try done. by rewrite Rabs_Ropp. Qed.

(** X6.  [tailProbFromZ] depends on [z] only through [|z|], and it is NaN
    exactly when [z] or [k] is NaN or both [|z|] and [k] are infinite
    (positive [k]); in every other case it is a number between 0 and 1. *)
Theorem tailProbFromZ_even_nan (z k : number) :
  tailProbFromZ (num_neg z) k = tailProbFromZ z k ∧
  (tailProbFromZ z k = NaN ↔
     z = NaN ∨ k = NaN ∨ (math_abs z = PosInf ∧ k = PosInf)) ∧
  (tailProbFromZ z k = NaN ∨
   ∃ p, tailProbFromZ z k = Fin p ∧ (0 <= p <= 1)%R).
Proof.
  split; [|split].
  - unfold tailProbFromZ. by rewrite math_abs_neg.
  - rewrite tailProbFromZ_of_t.
    destruct z as [| |z|], k as [| |k|]; simpl; split;
      try done; try (intros [?|[?|[? ?]]]; done); intros _; auto.
  - apply tailProbFromZ_range.
Qed.

(** X7.  For a [z] that is not NaN, raising the sensitivity [k] never
    raises the tail probability. *)
Theorem tailProbFromZ_antitone_k (z : number) (k1 k2 : R) :
  z ≠ NaN → (k1 <= k2)%R →
  num_leb (tailProbFromZ z (Fin k2)) (tailProbFromZ z (Fin k1)) = true.
Proof.
  intros Hz Hk. rewrite !tailProbFromZ_of_t.
  destruct z as [| |z|]; [done|simpl; apply Rleb_true; lra| |simpl; apply Rleb_true; lra].
  simpl. apply Rleb_true, logistic_mono. lra.
Qed.

Lemma tailProbFromZ_antitone_k_witness :
  num_leb (tailProbFromZ (Fin 3) (Fin 3.5)) (tailProbFromZ (Fin 3) (Fin 2.5)) = true.
Proof.
  apply (tailProbFromZ_antitone_k (Fin 3) 2.5%R 3.5%R); [discriminate|lra].
Defined.

(** ** The tail probability against the risk thresholds *)






(** ** Order of the risk bands and the banner *)

Lemma riskLabel_cases (p : number) :
  (num_geb p (Fin 0.80) = true ∧ riskLabel p = Risk.mk "High" "danger") ∨
  (num_geb p (Fin 0.80) = false ∧ num_geb p (Fin 0.50) = true ∧
   riskLabel p = Risk.mk "Elevated" "warn") ∨
  (num_geb p (Fin 0.80) = false ∧ num_geb p (Fin 0.50) = false ∧
   riskLabel p = Risk.mk "Normal" "ok").
Proof.
  unfold riskLabel.
  destruct (num_geb p (Fin 0.80)); [by left|right].
  destruct (num_geb p (Fin 0.50)); [by left|by right].
Qed.

Lemma num_leb_trans_fin (c : R) (p q : number) :
  num_leb (Fin c) p = true → num_leb p q = true → num_leb (Fin c) q = true.
Proof.
  destruct p as [| |p|], q as [| |q|]; simpl; try done.
  rewrite !Rleb_true. lra.
Qed.

Lemma risk_rank_mono (p q : number) :
  num_leb p q = true → risk_rank (riskLabel p) ≤ risk_rank (riskLabel q).
Proof.
  intros Hpq.
  destruct (riskLabel_cases p) as [[Hp ->]|[(_ & Hp & ->)|(_ & _ & ->)]];
    destruct (riskLabel_cases q) as [[Hq ->]|[(Hq8 & Hq & ->)|(Hq8 & Hq & ->)]];
    unfold risk_rank; simpl; try lia; exfalso; unfold num_geb in *.
  - by rewrite (num_leb_trans_fin _ _ _ Hp Hpq) in Hq8.
  - by rewrite (num_leb_trans_fin _ _ _ Hp Hpq) in Hq8.
  - by rewrite (num_leb_trans_fin _ _ _ Hp Hpq) in Hq.
Qed.

(** X9.  [riskLabel] is monotone: a larger probability never gets a lower
    band.  A NaN probability is labelled Normal. *)
Theorem riskLabel_monotone (p q : number) :
  (num_leb p q = true → risk_rank (riskLabel p) ≤ risk_rank (riskLabel q)) ∧
  riskLabel NaN = Risk.mk "Normal" "ok".
Proof. split; [apply risk_rank_mono|reflexivity]. Qed.

Lemma riskLabel_monotone_witness :
  risk_rank (riskLabel (Fin 0.6)) ≤ risk_rank (riskLabel (Fin 0.9)).
Proof.
  apply (riskLabel_monotone (Fin 0.6) (Fin 0.9)). simpl. apply Rleb_true. lra.
Defined.

(** X10.  The banner class is the class [riskLabel] returns; the banner
    shows the ALERT text exactly when the probability is at least 0.80,
    the WATCH text exactly when it is at least 0.50 and below 0.80, and
    the OK text otherwise, which includes a NaN probability. *)
Theorem alertBanner_of_probability (p : number) :
  Banner.className (alertBanner (riskLabel p))
    = ("card alertBanner " ++ Risk.cls (riskLabel p))%string ∧
  (Banner.text (alertBanner (riskLabel p)) = alert_text
     ↔ num_geb p (Fin 0.80) = true) ∧
  (Banner.text (alertBanner (riskLabel p)) = watch_text
     ↔ num_geb p (Fin 0.80) = false ∧ num_geb p (Fin 0.50) = true) ∧
  (Banner.text (alertBanner (riskLabel p)) = ok_text
     ↔ num_geb p (Fin 0.50) = false).
Proof.
  destruct (riskLabel_cases p) as [[Hp ->]|[(Hp8 & Hp & ->)|(Hp8 & Hp & ->)]].
  - assert (num_geb p (Fin 0.50) = true).
    { unfold num_geb in *. destruct p as [| |p|]; simpl in *; try done.
      apply Rleb_true in Hp. apply Rleb_true. lra. }
    repeat split; try done; intros; destruct_and?; congruence.
  - repeat split; try done; intros; destruct_and?; congruence.
  - repeat split; try done; intros; destruct_and?; congruence.
Qed.

(** ** The combined probability against its components *)





(** X12.  When a point's [pStress] is a number, its band is at least the
    band of [pSpread] and at least the band of [pRepo]: the overall alert
    is never milder than a component's. *)
Theorem stress_band_dominates (rows : list FeatureRow.t) (k : number) (p : ScorePoint.t) :
  p ∈ (computeBeginnerPlus rows k).1 → ScorePoint.pStress p ≠ NaN →
  risk_rank (riskLabel (ScorePoint.pSpread p)) ≤ risk_rank (riskLabel (ScorePoint.pStress p)) ∧
  risk_rank (riskLabel (ScorePoint.pRepo p)) ≤ risk_rank (riskLabel (ScorePoint.pStress p)).
Proof.
  rewrite computeBeginnerPlus_points. intros (o & -> & _)%list_elem_of_fmap.
  unfold score_of. rewrite score_row_pStress. intros Hn.
  destruct (score_row_inputs (mean (spreadVals rows))
              (js_or (std (spreadVals rows)) (Fin 1e-9)) (mean (repoVals rows))
              (js_or (std (repoVals rows)) (Fin 1e-9)) k o)
    as [[Ha|(a & Ha & Ha01)] [Hb|(b & Hb & Hb01)]];
    rewrite ?Ha, ?Hb in *; try done.
  rewrite combine_fin.
  split; apply risk_rank_mono; simpl; apply Rleb_true; nra.
Qed.

Lemma stress_band_dominates_witness :
  risk_rank (riskLabel (ScorePoint.pSpread point_one))
    ≤ risk_rank (riskLabel (ScorePoint.pStress point_one)) ∧
  risk_rank (riskLabel (ScorePoint.pRepo point_one))
    ≤ risk_rank (riskLabel (ScorePoint.pStress point_one)).
Proof.
  apply (stress_band_dominates [row_one] (Fin 2.5) point_one).
  - rewrite computeBeginnerPlus_points. apply list_elem_of_here.
  - unfold point_one, score_of. rewrite score_row_pStress, score_row_null_repo by done.
    unfold score_row. cbn [ScorePoint.pSpread FeatureRow.spread row_one to_number].
    rewrite std_few by (simpl; lia). rewrite js_or_NaN.
    rewrite (mean_single _ 0.01) by reflexivity.
    rewrite zscore_lone_value, tailProbFromZ_fin, combine_fin. discriminate.
Defined.

(** ** More on the date join *)

Lemma alignByDate_nil_r (seriesA : list Obs.t) : alignByDate seriesA [] = [].
Proof.
  rewrite alignByDate_omap. induction seriesA as [|a seriesA IH]; [done|].
  simpl. unfold align_row at 1. unfold new_Map at 1. simpl.
  rewrite lookup_empty. exact IH.
Qed.

(** X13.  The join works row by row on [seriesA]: joining a concatenation
    is concatenating the joins, and an empty series on either side gives
    an empty result. *)
Theorem alignByDate_app (seriesA1 seriesA2 seriesB : list Obs.t) :
  alignByDate (seriesA1 ++ seriesA2) seriesB
    = alignByDate seriesA1 seriesB ++ alignByDate seriesA2 seriesB ∧
  alignByDate [] seriesB = [] ∧
  alignByDate seriesA1 [] = [].
Proof.
  split; [|split]; [|reflexivity|apply alignByDate_nil_r].
  rewrite !alignByDate_omap. apply omap_app.
Qed.

(** The value found under a key is the one of the last entry with that
    key. *)
Lemma new_Map_lookup_last (entries : list (string * value)) (d : string) (v : value) :
  new_Map entries !! d = Some v ↔
  ∃ l1 l2, entries = l1 ++ (d, v) :: l2 ∧ d ∉ l2.*1.
Proof.
  induction entries as [|[d' v'] entries IH] using rev_ind.
  - unfold new_Map. simpl. rewrite lookup_empty. split; [done|].
    intros (l1 & l2 & H & _). by destruct l1.
  - rewrite new_Map_snoc. destruct (decide (d' = d)) as [->|Hne].
    + rewrite lookup_insert_eq. split.
      * intros [= ->]. exists entries, []. split; [done|]. apply not_elem_of_nil.
      * intros (l1 & l2 & H & Hnot).
        destruct l2 as [|x l2 _] using rev_ind.
        -- apply app_inj_tail in H as [_ ?]. by simplify_eq.
        -- rewrite app_comm_cons, app_assoc in H.
           apply app_inj_tail in H as [_ ?]. simplify_eq. exfalso. apply Hnot.
           rewrite fmap_app. apply elem_of_app. right. simpl. apply list_elem_of_here.
    + rewrite lookup_insert_ne by done. rewrite IH. split.
      * intros (l1 & l2 & -> & Hnot). exists l1, (l2 ++ [(d', v')]).
        split; [by rewrite <- app_assoc|].
        rewrite fmap_app, elem_of_app. intros [?|Hin]; [done|].
        simpl in Hin. apply list_elem_of_singleton in Hin. by subst.
      * intros (l1 & l2 & H & Hnot).
        destruct l2 as [|x l2 _] using rev_ind.
        -- apply app_inj_tail in H as [_ ?]. by simplify_eq.
        -- rewrite app_comm_cons, app_assoc in H.
           apply app_inj_tail in H as [? ?]. simplify_eq. exists l1, l2. split; [done|].
           intros Hin. apply Hnot. rewrite fmap_app. apply elem_of_app. by left.
Qed.

(** X14.  When [seriesB] repeats a date, the value joined is that of the
    last observation of [seriesB] with the date. *)
Theorem alignByDate_last_wins (seriesA seriesB : list Obs.t) (r : Aligned.t) :
  r ∈ alignByDate seriesA seriesB →
  ∃ B1 B2 : list Obs.t,
    seriesB = B1 ++ Obs.mk (Aligned.date r) (Aligned.b r) :: B2 ∧
    Aligned.date r ∉ Obs.date <$> B2.
Proof.
  rewrite alignByDate_omap, list_elem_of_omap. intros (a & _ & Hr).
  unfold align_row in Hr.
  destruct (new_Map _ !! Obs.date a) as [vb|] eqn:Hvb; [|done].
  injection Hr as <-. cbn [Aligned.date Aligned.b].
  apply new_Map_lookup_last in Hvb as (l1 & l2 & Hl & Hnot).
  apply fmap_app_inv in Hl as (B1 & B2' & Hl1 & Hl2 & ->).
  destruct B2' as [|b B2]; [done|]. rewrite fmap_cons in Hl2.
  injection Hl2 as Hd Hv Hl2. exists B1, B2. split.
  - destruct b. simpl in *. by subst.
  - rewrite Hl2, <- list_fmap_compose in Hnot. exact Hnot.
Qed.

Lemma alignByDate_last_wins_witness :
  ∃ B1 B2 : list Obs.t,
    series_twice = B1 ++ Obs.mk "2024-01-02" (Num (Fin 5.35)) :: B2 ∧
    "2024-01-02" ∉ Obs.date <$> B2.
Proof.
  apply (alignByDate_last_wins series_one_date series_twice
           (Aligned.mk "2024-01-02" (Num (Fin 5.33)) (Num (Fin 5.35)))).
  assert (E : alignByDate series_one_date series_twice
              = [Aligned.mk "2024-01-02" (Num (Fin 5.33)) (Num (Fin 5.35))])
    by reflexivity.
  rewrite E. apply list_elem_of_here.
Defined.

Lemma alignByDate_rows (seriesA seriesB : list Obs.t) :
  (λ r, Obs.mk (Aligned.date r) (Aligned.a r)) <$> alignByDate seriesA seriesB
  = filter (λ a, Obs.date a ∈ Obs.date <$> seriesB) seriesA.
Proof.
  rewrite alignByDate_omap.
  induction seriesA as [|a seriesA IH]; [done|].
  rewrite filter_cons. cbn [omap list_omap]. unfold align_row at 1.
  destruct (decide (Obs.date a ∈ Obs.date <$> seriesB)) as [Hin|Hout].
  - apply mapB_has in Hin as [vb Hvb]. rewrite Hvb. cbn.
    destruct a. f_equal. exact IH.
  - destruct (new_Map _ !! Obs.date a) as [vb|] eqn:Hvb; [|exact IH].
    exfalso. apply Hout, mapB_has. by eexists.
Qed.

(** X15.  The rows of the output, read as observations of [seriesA], are
    [seriesA] filtered by the dates of [seriesB]: the whole of [seriesA]
    when all its dates occur in [seriesB], nothing when none does. *)
Theorem alignByDate_filter (seriesA seriesB : list Obs.t) :
  (λ r, Obs.mk (Aligned.date r) (Aligned.a r)) <$> alignByDate seriesA seriesB
    = filter (λ a, Obs.date a ∈ Obs.date <$> seriesB) seriesA ∧
  (Forall (λ a, Obs.date a ∈ Obs.date <$> seriesB) seriesA →
   (λ r, Obs.mk (Aligned.date r) (Aligned.a r)) <$> alignByDate seriesA seriesB
     = seriesA ∧
   length (alignByDate seriesA seriesB) = length seriesA) ∧
  (Forall (λ a, Obs.date a ∉ Obs.date <$> seriesB) seriesA →
   alignByDate seriesA seriesB = []).
Proof.
  split; [apply alignByDate_rows|]. split.
  - intros Hall.
    assert (E : (λ r, Obs.mk (Aligned.date r) (Aligned.a r))
                  <$> alignByDate seriesA seriesB = seriesA)
      by (by rewrite alignByDate_rows, filter_all).
    split; [exact E|]. by rewrite <- E at 2; rewrite length_fmap.
  - intros Hnone. apply fmap_nil_inv with (f := λ r, Obs.mk (Aligned.date r) (Aligned.a r)).
    by rewrite alignByDate_rows, filter_none.
Qed.

Lemma alignByDate_filter_witness :
  (λ r, Obs.mk (Aligned.date r) (Aligned.a r)) <$> alignByDate sofr_4 effr_4 = sofr_4 ∧
  length (alignByDate sofr_4 effr_4) = length sofr_4.
Proof.
  apply (alignByDate_filter sofr_4 effr_4).
  apply (bool_decide_unpack _). reflexivity.
Defined.

(** ** The rows [renderCorePanels] gives to the model *)

Lemma spread_dates (sofrObs effrObs : list Obs.t) :
  Obs.date <$> spread sofrObs effrObs
  = filter (λ d, d ∈ Obs.date <$> effrObs) (Obs.date <$> sofrObs).
Proof.
  unfold spread. rewrite <- list_fmap_compose. apply alignByDate_dates.
Qed.

Lemma alignedForModel_dates (sofrObs effrObs repoObs : list Obs.t) :
  FeatureRow.date <$> alignedForModel sofrObs effrObs repoObs
  = filter (λ d, d ∈ Obs.date <$> repoObs)
      (filter (λ d, d ∈ Obs.date <$> effrObs) (Obs.date <$> sofrObs)).
Proof.
  unfold alignedForModel, aligned. rewrite <- !list_fmap_compose.
  rewrite <- spread_dates. apply alignByDate_dates.
Qed.

(** X16.  The dates of the rows given to the model are the dates of the
    SOFR series that also occur in the EFFR and in the repo series, in
    the order of the SOFR series; there are no more rows than SOFR
    observations. *)
Theorem alignedForModel_dates_in_all (sofrObs effrObs repoObs : list Obs.t) :
  FeatureRow.date <$> alignedForModel sofrObs effrObs repoObs
    = filter (λ d, d ∈ Obs.date <$> repoObs)
        (filter (λ d, d ∈ Obs.date <$> effrObs) (Obs.date <$> sofrObs)) ∧
  Forall (λ o, FeatureRow.date o ∈ Obs.date <$> sofrObs ∧
               FeatureRow.date o ∈ Obs.date <$> effrObs ∧
               FeatureRow.date o ∈ Obs.date <$> repoObs)
         (alignedForModel sofrObs effrObs repoObs) ∧
  length (alignedForModel sofrObs effrObs repoObs) ≤ length sofrObs.
Proof.
  pose proof (alignedForModel_dates sofrObs effrObs repoObs) as Hd.
  split; [exact Hd|]. split.
  - apply Forall_forall. intros o Ho.
    assert (Hin : FeatureRow.date o ∈ FeatureRow.date
                    <$> alignedForModel sofrObs effrObs repoObs)
      by (by apply list_elem_of_fmap_2).
    rewrite Hd in Hin.
    apply list_elem_of_filter in Hin as [Hr Hin].
    apply list_elem_of_filter in Hin as [He Hs]. done.
  - rewrite <- (length_fmap FeatureRow.date), Hd.
    etrans; [apply length_filter|]. etrans; [apply length_filter|].
    by rewrite length_fmap.
Qed.

(** X17.  Every row given to the model comes from one observation of each
    series with the row's date: its spread is the SOFR value minus the
    EFFR value, a [null] rate counting as 0, and its [repoVal] is the repo
    value. *)
Theorem alignedForModel_provenance (sofrObs effrObs repoObs : list Obs.t) :
  Forall (λ o, ∃ s e v : value,
            Obs.mk (FeatureRow.date o) s ∈ sofrObs ∧
            Obs.mk (FeatureRow.date o) e ∈ effrObs ∧
            Obs.mk (FeatureRow.date o) v ∈ repoObs ∧
            FeatureRow.spread o = Num (num_sub (to_number s) (to_number e)) ∧
            FeatureRow.repoVal o = v)
         (alignedForModel sofrObs effrObs repoObs).
Proof.
  unfold alignedForModel, aligned. rewrite <- list_fmap_compose.
  apply Forall_fmap, Forall_forall. intros r Hr. unfold compose. simpl.
  apply alignByDate_row in Hr as [Ha Hb].
  unfold spread in Ha. apply list_elem_of_fmap in Ha as (r' & Heq & Hr').
  injection Heq as Hd Hs. apply alignByDate_row in Hr' as [Hs' He'].
  exists (Aligned.a r'), (Aligned.b r'), (Aligned.b r).
  rewrite Hd in *. repeat split; done.
Qed.

(** ** A missing value in the log feature and in the spread *)

Lemma to_number_null_as_zero (o : Obs.t) :
  to_number (Obs.value (null_as_zero o)) = to_number (Obs.value o).
Proof. reflexivity. Qed.

Lemma repoLog_null_as_zero (repoObs : list Obs.t) :
  repoLog (null_as_zero <$> repoObs) = repoLog repoObs.
Proof. unfold repoLog. rewrite <- list_fmap_compose. by apply list_fmap_ext. Qed.

Lemma new_Map_fmap (h : value → value) (entries : list (string * value)) :
  new_Map ((λ kv, (kv.1, h kv.2)) <$> entries) = h <$> new_Map entries.
Proof.
  induction entries as [|[d v] entries IH] using rev_ind.
  - unfold new_Map. simpl. by rewrite fmap_empty.
  - rewrite fmap_app. simpl. rewrite !new_Map_snoc, IH. by rewrite fmap_insert.
Qed.

Lemma align_row_null_as_zero (m : gmap string value) (a : Obs.t) :
  align_row ((λ v, Num (to_number v)) <$> m) (null_as_zero a)
  = (λ r, Aligned.mk (Aligned.date r) (Num (to_number (Aligned.a r)))
                     (Num (to_number (Aligned.b r))))
      <$> align_row m a.
Proof.
  unfold align_row. cbn [null_as_zero Obs.date Obs.value]. rewrite lookup_fmap.
  by destruct (m !! Obs.date a).
Qed.

Lemma alignByDate_null_as_zero (seriesA seriesB : list Obs.t) :
  alignByDate (null_as_zero <$> seriesA) (null_as_zero <$> seriesB)
  = (λ r, Aligned.mk (Aligned.date r) (Num (to_number (Aligned.a r)))
                     (Num (to_number (Aligned.b r))))
      <$> alignByDate seriesA seriesB.
Proof.
  rewrite !alignByDate_omap, <- list_fmap_compose.
  change ((λ o, (Obs.date o, Obs.value o)) ∘ null_as_zero)
    with ((λ kv : string * value, (kv.1, Num (to_number kv.2)))
            ∘ (λ o, (Obs.date o, Obs.value o))).
  rewrite (list_fmap_compose (λ o, (Obs.date o, Obs.value o))
             (λ kv : string * value, (kv.1, Num (to_number kv.2))) seriesB).
  rewrite (new_Map_fmap (λ v, Num (to_number v))).
  induction seriesA as [|a seriesA IH]; [done|].
  rewrite fmap_cons. cbn [omap list_omap]. rewrite align_row_null_as_zero.
  destruct (align_row _ a) as [r|]; cbn; [f_equal|]; exact IH.
Qed.

(** X18.  The 5-step log change and the spread read a missing ([null])
    value as 0: replacing every [null] value by 0 changes neither
    [repoLogChg5] nor [spread]. *)
Theorem missing_value_reads_as_zero (sofrObs effrObs repoObs : list Obs.t) :
  repoLogChg5 (null_as_zero <$> repoObs) = repoLogChg5 repoObs ∧
  spread (null_as_zero <$> sofrObs) (null_as_zero <$> effrObs) = spread sofrObs effrObs.
Proof.
  split.
  - unfold repoLogChg5. by rewrite repoLog_null_as_zero.
  - unfold spread. rewrite alignByDate_null_as_zero, <- list_fmap_compose.
    by apply list_fmap_ext.
Qed.

(** ** Finite scores from finite input *)













Lemma get_or_null_non_null_Map (series : list Obs.t) (d : string) :
  get_or_null (non_null_Map series) d = Null ∨
  ∃ c, c ∈ series ∧ Obs.date c = d ∧ Obs.value c = get_or_null (non_null_Map series) d.
Proof.
  unfold get_or_null, non_null_Map.
  destruct (new_Map _ !! d) as [v|] eqn:Hv; [right|by left].
  apply new_Map_get, list_elem_of_fmap in Hv as (c & Hc & Hin).
  apply list_elem_of_filter in Hin as [_ Hin]. injection Hc as -> ->. eauto.
Qed.




(** ** Features attached by date *)

Lemma NoDup_fmap_elem {A B : Type} (f : A → B) (l : list A) (x y : A) :
  NoDup (f <$> l) → x ∈ l → y ∈ l → f x = f y → x = y.
Proof.
  intros Hnd [i Hi]%list_elem_of_lookup [j Hj]%list_elem_of_lookup Hf.
  assert (i = j) as ->.
  { eapply (NoDup_lookup _ i j (f x) Hnd).
    - by rewrite list_lookup_fmap, Hi.
    - by rewrite list_lookup_fmap, Hj, Hf. }
  congruence.
Qed.

Lemma repoDelta1_dates (repoObs : list Obs.t) :
  Obs.date <$> repoDelta1 repoObs = Obs.date <$> repoObs.
Proof.
  apply list_eq. intros i. unfold repoDelta1.
  rewrite !list_lookup_fmap, list_lookup_imap. by destruct (repoObs !! i).
Qed.

Lemma repoLogChg5_dates (repoObs : list Obs.t) :
  Obs.date <$> repoLogChg5 repoObs = Obs.date <$> repoObs.
Proof.
  apply list_eq. intros i. unfold repoLogChg5, repoLog.
  rewrite !list_lookup_fmap, list_lookup_imap, list_lookup_fmap.
  by destruct (repoObs !! i).
Qed.

(** With pairwise distinct dates, looking a date up in the Map of the
    non-null values gives back the value of the observation with that
    date, [null] included. *)
Lemma get_or_null_distinct (series : list Obs.t) (c : Obs.t) :
  NoDup (Obs.date <$> series) → c ∈ series →
  get_or_null (non_null_Map series) (Obs.date c) = Obs.value c.
Proof.
  intros Hnd Hc.
  destruct (get_or_null_non_null_Map series (Obs.date c)) as [Hnull|(c' & Hc' & Hd & Hv)].
  - rewrite Hnull. destruct (Obs.value c) as [|n] eqn:Hvc; [done|]. exfalso.
    unfold get_or_null, non_null_Map in Hnull.
    assert (Hin : Obs.date c ∈ ((λ x, (Obs.date x, Obs.value x))
                     <$> filter (λ x, not_null (Obs.value x) = true) series).*1).
    { rewrite <- list_fmap_compose. apply (list_elem_of_fmap_2 Obs.date).
      apply list_elem_of_filter. split; [by rewrite Hvc|done]. }
    apply new_Map_has in Hin as [v Hv]. rewrite Hv in Hnull. subst v.
    apply new_Map_get, list_elem_of_fmap in Hv as (c' & Heq & Hin').
    apply list_elem_of_filter in Hin' as [Hnn _]. injection Heq as _ Heq.
    by rewrite <- Heq in Hnn.
  - rewrite <- Hv. f_equal. by apply (NoDup_fmap_elem Obs.date series).
Qed.

(** X21.  When the repo dates are pairwise distinct, the row for a date
    carries the repo observation of that date: its volume, its 1-step
    delta and its 5-step log change, each exactly as computed at that
    observation's index (a null feature stays null). *)
Theorem alignedForModel_features_by_date
    (sofrObs effrObs repoObs : list Obs.t) (row : FeatureRow.t) (i : nat) (o : Obs.t) :
  NoDup (Obs.date <$> repoObs) →
  row ∈ alignedForModel sofrObs effrObs repoObs →
  repoObs !! i = Some o → Obs.date o = FeatureRow.date row →
  ∃ d c,
    repoDelta1 repoObs !! i = Some d ∧ repoLogChg5 repoObs !! i = Some c ∧
    FeatureRow.repoVal row = Obs.value o ∧
    FeatureRow.repoDelta1 row = Obs.value d ∧
    FeatureRow.repoLogChg5 row = Obs.value c.
Proof.
  intros Hnd Hrow Hi Hdate.
  pose proof (repoDelta1_lookup repoObs i o Hi) as Hd.
  pose proof (repoLogChg5_lookup repoObs i o Hi) as Hc.
  eexists _, _. split; [exact Hd|]. split; [exact Hc|].
  unfold alignedForModel, aligned in Hrow. rewrite <- list_fmap_compose in Hrow.
  apply list_elem_of_fmap in Hrow as (r & -> & Hr). unfold compose in *.
  cbn [FeatureRow.repoVal FeatureRow.repoDelta1 FeatureRow.repoLogChg5 FeatureRow.date
       SpreadRepo.date SpreadRepo.repoVal] in *.
  apply alignByDate_row in Hr as [_ Hb]. rewrite <- Hdate.
  split; [|split].
  - assert (E : Obs.mk (Aligned.date r) (Aligned.b r) = o).
    { apply (NoDup_fmap_elem Obs.date repoObs); [done..| |done].
      by eapply list_elem_of_lookup_2. }
    by rewrite <- E.
  - rewrite <- (get_or_null_distinct (repoDelta1 repoObs) _).
    + reflexivity.
    + by rewrite repoDelta1_dates.
    + by eapply list_elem_of_lookup_2.
  - rewrite <- (get_or_null_distinct (repoLogChg5 repoObs) _).
    + reflexivity.
    + by rewrite repoLogChg5_dates.
    + by eapply list_elem_of_lookup_2.
Qed.

Lemma alignedForModel_features_by_date_witness :
  ∃ d c,
    repoDelta1 repo_6 !! 3 = Some d ∧ repoLogChg5 repo_6 !! 3 = Some c ∧
    FeatureRow.repoVal row_jan_5 = Num (Fin 0) ∧
    FeatureRow.repoDelta1 row_jan_5 = Obs.value d ∧
    FeatureRow.repoLogChg5 row_jan_5 = Obs.value c.
Proof.
  apply (alignedForModel_features_by_date sofr_4 effr_4 repo_6 row_jan_5 3
           (Obs.mk "2024-01-05" (Num (Fin 0)))).
  - apply (bool_decide_unpack _). reflexivity.
  - apply (list_elem_of_lookup_2 _ 3). reflexivity.
  - reflexivity.
  - reflexivity.
Defined.

(** ** Headline values *)

Lemma last_index {A : Type} (l : list A) : l !! (length l - 1) = last l.
Proof. rewrite last_lookup. by destruct l; simpl; rewrite ?Nat.sub_0_r. Qed.

(** X22.  [latest] is null exactly for no rows; otherwise it is the score
    of the last row, so the headline spread and repo delta, read from the
    last row, belong to the date of [latest], and reading them never goes
    past the end of the array. *)
Theorem headline_of_last_row (rows : list FeatureRow.t) (k : number) :
  ((computeBeginnerPlus rows k).2 = None ↔ rows = []) ∧
  (computeBeginnerPlus rows k).2 = score_of rows k <$> last rows ∧
  (∀ o, last rows = Some o →
     ∃ l, (computeBeginnerPlus rows k).2 = Some l ∧
          ScorePoint.date l = FeatureRow.date o ∧
          spreadNow rows (computeBeginnerPlus rows k).2 = Some (FeatureRow.spread o) ∧
          repoDeltaNow rows = Some (FeatureRow.repoDelta1 o)).
Proof.
  assert (H : (computeBeginnerPlus rows k).2 = score_of rows k <$> last rows).
  { rewrite computeBeginnerPlus_latest, computeBeginnerPlus_points. apply fmap_last. }
  split; [|split; [exact H|]].
  - rewrite H. destruct rows as [|o rows] using rev_ind; [done|].
    rewrite last_snoc. split; [done|]. by destruct rows.
  - intros o Ho. rewrite H, Ho. eexists. split; [reflexivity|].
    split; [reflexivity|]. unfold spreadNow, repoDeltaNow. cbn [fmap option_fmap option_map].
    rewrite last_index, Ho.
    destruct (Nat.eqb_spec (length rows) 0) as [E|_]; [by destruct rows|done].
Qed.

Lemma headline_of_last_row_witness :
  ∃ l, (computeBeginnerPlus rows_three (Fin 2.5)).2 = Some l ∧
       ScorePoint.date l = "2024-01-04" ∧
       spreadNow rows_three (computeBeginnerPlus rows_three (Fin 2.5)).2
         = Some (Num (Fin 1)) ∧
       repoDeltaNow rows_three = Some (Num (Fin (-30))).
Proof.
  apply (proj2 (proj2 (headline_of_last_row rows_three (Fin 2.5)))
           (FeatureRow.mk "2024-01-04" (Num (Fin 1)) (Num (Fin 90)) (Num (Fin (-30))) Null)).
  reflexivity.
Defined.

(** X23.  For a [pStress] between 0 and 1 the gauge gets an integer
    between 0 and 100, within one half of the product [pStress * 100] the
    script computes; a NaN [pStress] reaches the gauge as NaN. *)
Theorem gaugeValue_range (l : ScorePoint.t) :
  (∀ s : R, ScorePoint.pStress l = Fin s → (0 <= s <= 1)%R →
     ∃ (x : R) (n : Z),
       num_mul (ScorePoint.pStress l) (Fin 100) = Fin x ∧
       gaugeValue l = Fin (IZR n) ∧ (0 ≤ n ≤ 100)%Z ∧
       (Rabs (IZR n - x) <= 0.5)%R) ∧
  (ScorePoint.pStress l = NaN → gaugeValue l = NaN).
Proof.
  split; [|unfold gaugeValue; by intros ->].
  intros s Hs H01. unfold gaugeValue. rewrite Hs. cbn [num_mul math_round].
  exists (s * 100)%R, (Int_part (s * 100 + 0.5)).
  split; [reflexivity|]. split; [reflexivity|].
  destruct (base_Int_part (s * 100 + 0.5)) as [Hle Hgt].
  set (n := Int_part (s * 100 + 0.5)) in *.
  split; [split|].
  - assert (-1 < n)%Z; [|lia]. apply lt_IZR. lra.
  - assert (n < 101)%Z; [|lia]. apply lt_IZR. lra.
  - apply Rabs_le. lra.
Qed.

Lemma gaugeValue_range_witness :
  ∃ (x : R) (n : Z),
    num_mul (Fin 0.5) (Fin 100) = Fin x ∧
    gaugeValue (ScorePoint.mk "2024-01-04" (Fin 0.5) (Fin 0.5) (Fin 0) (Fin 2.5))
      = Fin (IZR n) ∧ (0 ≤ n ≤ 100)%Z ∧ (Rabs (IZR n - x) <= 0.5)%R.
Proof.
  apply (proj1 (gaugeValue_range
           (ScorePoint.mk "2024-01-04" (Fin 0.5) (Fin 0.5) (Fin 0) (Fin 2.5))) 0.5%R).
  - reflexivity.
  - lra.
Defined.

(** ** The band of the selected series *)



(** ** Where binary64 parts from exact arithmetic

    The script's expressions evaluated on binary64 numbers. *)

(** The mean of three times 0.1 is rounded to 0.10000000000000002, and
    the mean of two times 1e308 overflows. *)
Example binary64_mean_rounds :
  B64.mean [Some 0x1.999999999999ap-4; Some 0x1.999999999999ap-4;
            Some 0x1.999999999999ap-4]%float
    = 0x1.999999999999bp-4%float ∧
  B64.mean [Some 0x1.1ccf385ebc8a0p+1023; Some 0x1.1ccf385ebc8a0p+1023]%float
    = infinity.
Proof. split; reflexivity. Qed.

(** For three rows of spread 0.1 the standard deviation is about 1.7e-17,
    not 0, so [std || 1e-9] keeps it and each z-score is about -0.816;
    for two rows of spread 0.1 the mean is exact and the z-score is 0. *)
Example binary64_flat_series :
  B64.std [Some 0x1.999999999999ap-4; Some 0x1.999999999999ap-4;
           Some 0x1.999999999999ap-4]%float
    = 0x1.3988e1409212ep-56%float ∧
  B64.zSpread [Some 0x1.999999999999ap-4; Some 0x1.999999999999ap-4;
               Some 0x1.999999999999ap-4]%float (Some 0x1.999999999999ap-4%float)
    = (-0x1.a20bd700c2c3fp-1)%float ∧
  B64.zSpread [Some 0x1.999999999999ap-4; Some 0x1.999999999999ap-4]%float
              (Some 0x1.999999999999ap-4%float)
    = 0%float.
Proof. repeat split; reflexivity. Qed.

(** With one finite spread 0.1 and a null one, the row with the null
    spread has the z-score [(0 - 0.1) / 1e-9]. *)
Example binary64_sparse_series :
  B64.zSpread [Some 0x1.999999999999ap-4%float; None] None = (-100000000)%float.
Proof. reflexivity. Qed.
